(** * QuantMind signal engine: a shallow embedding of the strategy service

    The two strategy-service sources ([src/unnamed/part_000], the weighted
    composite, and [src/unnamed/part_001], the regime-aware composite) are
    embedded as Rocq functions and the properties of the specification are
    stated over them; of [src/App.tsx], the candle history that
    [processMarketTick] keeps for each symbol.

    Number model.  A TypeScript [number] is a value of [number] below: an
    exact rational, one of the two infinities, or NaN.  Rounding, overflow
    and the sign of zero are not represented: finite arithmetic is exact
    rational arithmetic (and a zero divisor is taken as +0), while the
    results of dividing by zero and of reading past the end of an array
    follow JavaScript, because the source guards on them ([!prevBtcPrice],
    [lower === 0]).  An out-of-range read of a numeric array gives
    [undefined]; every use the source makes of such a value is arithmetic, a
    relational comparison, [=== 0] or [!x], where [undefined] and NaN act
    alike, so both are the one value [NaN].  Where rounding decides a
    property of the EMA recurrence, the recurrence is evaluated over
    binary64 numbers (module [Binary64]).

    Inputs.  Candle, position and parameter fields hold finite numbers
    ([Q]); periods are integer-valued ([Z]), of either sign.

    [Math.sqrt] on finite non-negative arguments is the field [Qsqrt] of the
    class [MathLib]; nothing is assumed about it. *)

From Stdlib Require Import PrimFloat.
From Stdlib Require Import QArith Qround Qabs ZArith List Bool Lia Lqa Sorted.
From stdpp Require Import gmap strings.
Import ListNotations.

(** ** JavaScript numbers *)

Inductive number : Type :=
| Fin (q : Q)
| PosInf
| NegInf
| NaN.

Class MathLib : Type := { Qsqrt : Q -> Q }.

Definition Qltb (x y : Q) : bool := negb (Qle_bool y x).

Definition inf_of (positive : bool) : number :=
  if positive then PosInf else NegInf.

(** [±Infinity * q] for a finite [q]. *)
Definition scale_inf (positive : bool) (q : Q) : number :=
  if Qeq_bool q 0 then NaN
  else if Qltb 0 q then inf_of positive else inf_of (negb positive).

Definition neg (x : number) : number :=
  match x with
  | Fin q => Fin (- q)
  | PosInf => NegInf
  | NegInf => PosInf
  | NaN => NaN
  end.

Definition add (x y : number) : number :=
  match x, y with
  | NaN, _ | _, NaN => NaN
  | Fin a, Fin b => Fin (a + b)
  | PosInf, NegInf | NegInf, PosInf => NaN
  | PosInf, _ | _, PosInf => PosInf
  | NegInf, _ | _, NegInf => NegInf
  end.

Definition sub (x y : number) : number := add x (neg y).

Definition mul (x y : number) : number :=
  match x, y with
  | NaN, _ | _, NaN => NaN
  | Fin a, Fin b => Fin (a * b)
  | Fin a, PosInf | PosInf, Fin a => scale_inf true a
  | Fin a, NegInf | NegInf, Fin a => scale_inf false a
  | PosInf, PosInf | NegInf, NegInf => PosInf
  | PosInf, NegInf | NegInf, PosInf => NegInf
  end.

Definition div (x y : number) : number :=
  match x, y with
  | NaN, _ | _, NaN => NaN
  | Fin a, Fin b =>
      if Qeq_bool b 0
      then (if Qeq_bool a 0 then NaN else inf_of (Qltb 0 a))
      else Fin (a / b)
  | Fin _, (PosInf | NegInf) => Fin 0
  | PosInf, Fin b => inf_of (Qle_bool 0 b)
  | NegInf, Fin b => inf_of (Qltb b 0)
  | (PosInf | NegInf), (PosInf | NegInf) => NaN
  end.

(** Relational operators: every comparison with NaN is [false]. *)
Definition lt (x y : number) : bool :=
  match x, y with
  | NaN, _ | _, NaN => false
  | Fin a, Fin b => Qltb a b
  | Fin _, PosInf => true
  | Fin _, NegInf => false
  | PosInf, _ => false
  | NegInf, NegInf => false
  | NegInf, _ => true
  end.

Definition le (x y : number) : bool :=
  match x, y with
  | NaN, _ | _, NaN => false
  | Fin a, Fin b => Qle_bool a b
  | Fin _, PosInf => true
  | Fin _, NegInf => false
  | PosInf, PosInf => true
  | PosInf, _ => false
  | NegInf, _ => true
  end.

Definition gt (x y : number) : bool := lt y x.
Definition ge (x y : number) : bool := le y x.

(** Strict equality [===] of two numbers. *)
Definition seq_num (x y : number) : bool :=
  match x, y with
  | Fin a, Fin b => Qeq_bool a b
  | PosInf, PosInf | NegInf, NegInf => true
  | _, _ => false
  end.

(** [!x]: a number is falsy when it is 0 or NaN (or [undefined]). *)
Definition falsy (x : number) : bool :=
  match x with
  | Fin q => Qeq_bool q 0
  | NaN => true
  | PosInf | NegInf => false
  end.

Declare Scope js_scope.
Delimit Scope js_scope with js.
Bind Scope js_scope with number.

Notation "x +. y" := (add x y) (at level 50, left associativity).
Notation "x -. y" := (sub x y) (at level 50, left associativity).
Notation "x *. y" := (mul x y) (at level 40, left associativity).
Notation "x /. y" := (div x y) (at level 40, left associativity).
Notation "x <. y" := (lt x y) (at level 70, no associativity).
Notation "x <=. y" := (le x y) (at level 70, no associativity).
Notation "x >. y" := (gt x y) (at level 70, no associativity).
Notation "x >=. y" := (ge x y) (at level 70, no associativity).
Notation "x ===. y" := (seq_num x y) (at level 70, no associativity).

Definition ofZ (z : Z) : number := Fin (inject_Z z).

Definition Math_abs (x : number) : number :=
  match x with
  | Fin q => Fin (Qabs q)
  | PosInf | NegInf => PosInf
  | NaN => NaN
  end.

Definition Math_min (x y : number) : number :=
  match x, y with
  | NaN, _ | _, NaN => NaN
  | _, _ => if x <=. y then x else y
  end.

Definition Math_max (x y : number) : number :=
  match x, y with
  | NaN, _ | _, NaN => NaN
  | _, _ => if x <=. y then y else x
  end.

Definition Math_floor (x : number) : number :=
  match x with
  | Fin q => ofZ (Qfloor q)
  | _ => x
  end.

Definition Math_sqrt `{MathLib} (x : number) : number :=
  match x with
  | Fin q => if Qltb q 0 then NaN else Fin (Qsqrt q)
  | PosInf => PosInf
  | NegInf | NaN => NaN
  end.

(** [Math.pow(x, 2)]. *)
Definition Math_pow2 (x : number) : number := x *. x.

(** [parseFloat(x.toFixed(2))]: the nearest multiple of 1/100, a tie going
    away from zero.  (From 1e21 on [toFixed] prints the number itself; a
    double that large is an integer, which this rounding leaves alone.) *)
Definition Qround2 (q : Q) : Q :=
  if Qltb q 0
  then (- (inject_Z (Qfloor (- q * 100 + 0.5)) / 100))%Q
  else (inject_Z (Qfloor (q * 100 + 0.5)) / 100)%Q.

Definition toFixed2 (x : number) : number :=
  match x with
  | Fin q => Fin (Qround2 q)
  | _ => x
  end.

(** ** Arrays *)

(** [arr[i]] on an array of numbers. *)
Definition get (arr : list number) (i : Z) : number :=
  if (i <? 0)%Z then NaN else nth (Z.to_nat i) arr NaN.

Definition len {A} (arr : list A) : Z := Z.of_nat (length arr).

(** [arr.slice(start)]. *)
Definition slice_from {A} (start : Z) (arr : list A) : list A :=
  let k := if (start <? 0)%Z then Z.max (len arr + start) 0
           else Z.min start (len arr) in
  skipn (Z.to_nat k) arr.

(** [arr.slice(0, stop)]. *)
Definition slice_to {A} (stop : Z) (arr : list A) : list A :=
  let k := if (stop <? 0)%Z then Z.max (len arr + stop) 0
           else Z.min stop (len arr) in
  firstn (Z.to_nat k) arr.

(** [arr.reduce((a, b) => a + b, 0)]. *)
Definition sum (arr : list number) : number := fold_left add arr (Fin 0).

(** The indices [start, start+1, ..., stop-1] of a counting [for] loop. *)
Definition range (start stop : Z) : list Z :=
  map (fun k => (start + Z.of_nat k)%Z) (seq 0 (Z.to_nat (stop - start))).

(** ** Data model ([src/types.ts]) *)

Inductive StrategyType : Type :=
| MA_CROSSOVER
| RSI_REVERSION
| BOLLINGER_BREAKOUT
| MACD_TREND
| EMA_CROSSOVER
| MARTINGALE
| ARBITRAGE.

Inductive Signal : Type := BUY | SELL | NEUTRAL.

Inductive TradeStatus : Type := OPEN | CLOSED.

Record StrategyConfigItem : Type := {
  sc_type : StrategyType;
  enabled : bool;
  weight : Q
}.

Record StrategyParameters : Type := {
  fastPeriod : Z;
  slowPeriod : Z;
  rsiPeriod : Z;
  rsiOverbought : Q;
  rsiOversold : Q;
  bbPeriod : Z;
  bbStdDev : Q;
  macdFast : Z;
  macdSlow : Z;
  macdSignal : Z;
  martingalePriceDrop : Q;
  martingaleProfitTarget : Q;
  martingaleVolumeMultiplier : Q
}.

Record MarketCandle : Type := {
  symbol : string;
  timestamp : Q;
  open : Q;
  high : Q;
  low : Q;
  close : Q;
  volume : Q
}.

Record Trade : Type := {
  t_id : string;
  t_symbol : string;
  t_type : Signal;
  price : Q;
  amount : Q;
  leverage : Q;
  t_timestamp : Q;
  status : TradeStatus;
  t_strategy : string
}.

(** [CryptoCurrency.BTC]. *)
Definition BTC : string := "BTC".

(** ** Indicator helpers (identical in both sources) *)

Definition closes_of (candles : list MarketCandle) : list number :=
  map (fun c => Fin (close c)) candles.

Definition calculateSMA (data : list number) (period : Z) : number :=
  if (len data <? period)%Z then Fin 0
  else sum (slice_from (- period) data) /. ofZ period.

(** The body of the [for] loop of [calculateEMASeries]: [prev] is
    [emaArray[i - 1]], the element pushed last. *)
Fixpoint ema_loop (k prev : number) (rest : list number) : list number :=
  match rest with
  | [] => []
  | d :: rest' =>
      let ema := d *. k +. prev *. (Fin 1 -. k) in
      ema :: ema_loop k ema rest'
  end.

Definition ema_k (period : Z) : number := Fin 2 /. ofZ (period + 1).

Definition calculateEMASeries (data : list number) (period : Z)
  : list number :=
  match data with
  | [] => []
  | d0 :: rest => d0 :: ema_loop (ema_k period) d0 rest
  end.

(** The same loop over IEEE binary64 numbers, rounding after every
    operation as the program does.  It serves to evaluate the recurrence
    where the exact model above and the program part. *)
Module Binary64.

Fixpoint ema_loop (k prev : float) (rest : list float) : list float :=
  match rest with
  | [] => []
  | d :: rest' =>
      let ema := (d * k + prev * (1 - k))%float in
      ema :: ema_loop k ema rest'
  end.

Definition calculateEMASeries (data : list float) (period : float)
  : list float :=
  match data with
  | [] => []
  | d0 :: rest => d0 :: ema_loop (2 / (period + 1))%float d0 rest
  end.

End Binary64.

(** [candles[i].close]; the loops below only read inside the array. *)
Definition close_at (candles : list MarketCandle) (i : Z) : number :=
  get (closes_of candles) i.

Definition rsi_step (candles : list MarketCandle)
  (acc : number * number) (i : Z) : number * number :=
  let '(gains, losses) := acc in
  let diff := close_at candles i -. close_at candles (i - 1) in
  if diff >=. Fin 0 then (gains +. diff, losses) else (gains, losses -. diff).

Definition rsi_sums (candles : list MarketCandle) (period : Z)
  : number * number :=
  fold_left (rsi_step candles)
    (range (len candles - period) (len candles)) (Fin 0, Fin 0).

Definition calculateRSI (candles : list MarketCandle) (period : Z) : number :=
  if (len candles <? period + 1)%Z then Fin 50
  else
    let '(gains, losses) := rsi_sums candles period in
    if losses ===. Fin 0 then Fin 100
    else
      let rs := gains /. losses in
      Fin 100 -. (Fin 100 /. (Fin 1 +. rs)).

(** [candles[i].volume]. *)
Definition volume_at (candles : list MarketCandle) (i : Z) : number :=
  get (map (fun c => Fin (volume c)) candles) i.

(** [candles[0]?.symbol]: [None] is [undefined]. *)
Definition symbol_of (candles : list MarketCandle) : option string :=
  option_map symbol (head candles).

(** [!symbol]: [undefined] and the empty string are falsy. *)
Definition no_symbol (s : option string) : bool :=
  match s with
  | None => true
  | Some s => String.eqb s EmptyString
  end.

(** [p.symbol === symbol]. *)
Definition symbol_is (s : option string) (name : string) : bool :=
  match s with
  | None => false
  | Some s => String.eqb name s
  end.

Definition is_open (p : Trade) : bool :=
  match status p with OPEN => true | CLOSED => false end.

(** The numeric vote of a signal. *)
Definition numericSignal (s : Signal) : number :=
  match s with BUY => Fin 1 | SELL => Fin (-1) | NEUTRAL => Fin 0 end.

(** The decision thresholds of both composites. *)
Definition finalSignal (finalScore : number) : Signal :=
  if finalScore >. Fin 0.25 then BUY
  else if finalScore <. Fin (-0.25) then SELL
  else NEUTRAL.

(** ** The strategy service with the weighted composite
    ([src/unnamed/part_000]) *)

Module StrategyService.
Section WithMath.
Context `{MathLib}.

Record Bands : Type := { upper : number; middle : number; lower : number }.

Definition calculateBollingerBands (candles : list MarketCandle)
  (period : Z) (stdDevMult : Q) : Bands :=
  let closes := closes_of candles in
  if (len closes <? period)%Z
  then {| upper := Fin 0; middle := Fin 0; lower := Fin 0 |}
  else
    let sma := calculateSMA closes period in
    let slice := slice_from (- period) closes in
    let squaredDiffs := map (fun val => Math_pow2 (val -. sma)) slice in
    let variance := sum squaredDiffs /. ofZ period in
    let stdDev := Math_sqrt variance in
    {| middle := sma;
       upper := sma +. (stdDev *. Fin stdDevMult);
       lower := sma -. (stdDev *. Fin stdDevMult) |}.

Record Macd : Type := {
  macdLine : number;
  signalLine : number;
  prevMacdLine : number;
  prevSignalLine : number
}.

Definition calculateMACD (candles : list MarketCandle)
  (fast slow signal : Z) : Macd :=
  let closes := closes_of candles in
  if (len closes <? slow + signal)%Z
  then {| macdLine := Fin 0; signalLine := Fin 0;
          prevMacdLine := Fin 0; prevSignalLine := Fin 0 |}
  else
    let emaFast := calculateEMASeries closes fast in
    let emaSlow := calculateEMASeries closes slow in
    let macdLineSeries :=
      map (fun i => get emaFast i -. get emaSlow i) (range 0 (len closes)) in
    let signalLineSeries := calculateEMASeries macdLineSeries signal in
    {| macdLine := get macdLineSeries (len macdLineSeries - 1);
       signalLine := get signalLineSeries (len signalLineSeries - 1);
       prevMacdLine := get macdLineSeries (len macdLineSeries - 2);
       prevSignalLine := get signalLineSeries (len signalLineSeries - 2) |}.

(** [case StrategyType.MA_CROSSOVER]. *)
Definition case_MA_CROSSOVER (candles : list MarketCandle)
  (params : StrategyParameters) : Signal :=
  let closes := closes_of candles in
  let currentPrice := get closes (len closes - 1) in
  let fastP := fastPeriod params in
  let slowP := slowPeriod params in
  if (len closes <? slowP + 5)%Z then NEUTRAL
  else
    let maFast := calculateSMA closes fastP in
    let maSlow := calculateSMA closes slowP in
    let prevMaFast := calculateSMA (slice_to (-1) closes) fastP in
    let prevMaSlow := calculateSMA (slice_to (-1) closes) slowP in
    let maFast_prev3 := calculateSMA (slice_to (-3) closes) fastP in
    let maSlow_prev3 := calculateSMA (slice_to (-3) closes) slowP in
    let slopeFast := (maFast -. maFast_prev3) /. Fin 3 in
    let slopeSlow := (maSlow -. maSlow_prev3) /. Fin 3 in
    let isGoldenCross := (prevMaFast <=. prevMaSlow) && (maFast >. maSlow) in
    let isDeathCross := (prevMaFast >=. prevMaSlow) && (maFast <. maSlow) in
    if negb isGoldenCross && negb isDeathCross then NEUTRAL
    else
      let slopeThreshold := currentPrice *. Fin 0.00005 in
      if isGoldenCross
         && ((slopeFast >. slopeThreshold) && (slopeSlow >. neg slopeThreshold))
      then BUY
      else if isDeathCross
         && ((slopeFast <. neg slopeThreshold) && (slopeSlow <. slopeThreshold))
      then SELL
      else NEUTRAL.

(** [case StrategyType.EMA_CROSSOVER]. *)
Definition case_EMA_CROSSOVER (candles : list MarketCandle)
  (params : StrategyParameters) : Signal :=
  let closes := closes_of candles in
  let fastP := fastPeriod params in
  let slowP := slowPeriod params in
  if (len closes <? slowP + 1)%Z then NEUTRAL
  else
    let emaFastSeries := calculateEMASeries closes fastP in
    let emaSlowSeries := calculateEMASeries closes slowP in
    let emaFast := get emaFastSeries (len emaFastSeries - 1) in
    let emaSlow := get emaSlowSeries (len emaSlowSeries - 1) in
    let prevEmaFast := get emaFastSeries (len emaFastSeries - 2) in
    let prevEmaSlow := get emaSlowSeries (len emaSlowSeries - 2) in
    if (prevEmaFast <=. prevEmaSlow) && (emaFast >. emaSlow) then BUY
    else if (prevEmaFast >=. prevEmaSlow) && (emaFast <. emaSlow) then SELL
    else NEUTRAL.

(** [case StrategyType.RSI_REVERSION]. *)
Definition case_RSI_REVERSION (candles : list MarketCandle)
  (params : StrategyParameters) : Signal :=
  let rsi := calculateRSI candles (rsiPeriod params) in
  if rsi <. Fin (rsiOversold params) then BUY
  else if rsi >. Fin (rsiOverbought params) then SELL
  else NEUTRAL.

(** [case StrategyType.BOLLINGER_BREAKOUT]. *)
Definition case_BOLLINGER_BREAKOUT (candles : list MarketCandle)
  (params : StrategyParameters) : Signal :=
  let closes := closes_of candles in
  let currentPrice := get closes (len closes - 1) in
  let bands :=
    calculateBollingerBands candles (bbPeriod params) (bbStdDev params) in
  if lower bands ===. Fin 0 then NEUTRAL
  else if currentPrice <=. lower bands then BUY
  else if currentPrice >=. upper bands then SELL
  else NEUTRAL.

(** [case StrategyType.MACD_TREND]. *)
Definition case_MACD_TREND (candles : list MarketCandle)
  (params : StrategyParameters) : Signal :=
  let m := calculateMACD candles
             (macdFast params) (macdSlow params) (macdSignal params) in
  if (macdLine m ===. Fin 0) && (signalLine m ===. Fin 0) then NEUTRAL
  else if (prevMacdLine m <=. prevSignalLine m) && (macdLine m >. signalLine m)
  then BUY
  else if (prevMacdLine m >=. prevSignalLine m) && (macdLine m <. signalLine m)
  then SELL
  else NEUTRAL.

(** The [forEach] of the Martingale case: total volume and total cost. *)
Definition lot_totals (symbolPositions : list Trade) : number * number :=
  fold_left
    (fun '(totalVol, totalCost) p =>
       (totalVol +. Fin (amount p),
        totalCost +. (Fin (amount p) *. Fin (price p))))
    symbolPositions (Fin 0, Fin 0).

(** [case StrategyType.MARTINGALE].  [last] is [None] exactly on the empty
    array, the [symbolPositions.length === 0] test of the source. *)
Definition case_MARTINGALE (candles : list MarketCandle)
  (activePositions : list Trade) (params : StrategyParameters) : Signal :=
  let closes := closes_of candles in
  let currentPrice := get closes (len closes - 1) in
  let symbol := symbol_of candles in
  let symbolPositions :=
    List.filter (fun p => symbol_is symbol (t_symbol p) && is_open p)
      activePositions in
  match last symbolPositions with
  | None =>
      let rsi := calculateRSI candles (rsiPeriod params) in
      if rsi <. (Fin (rsiOversold params) +. Fin 10) then BUY else NEUTRAL
  | Some lastTrade =>
      let entryPrice := Fin (price lastTrade) in
      let priceChangePercent := (currentPrice -. entryPrice) /. entryPrice in
      let dropThreshold := neg (Fin (martingalePriceDrop params) /. Fin 100) in
      if priceChangePercent <. dropThreshold then BUY
      else
        let profitThreshold :=
          Fin (martingaleProfitTarget params) /. Fin 100 in
        let '(totalVol, totalCost) := lot_totals symbolPositions in
        let avgPrice := totalCost /. totalVol in
        let avgPriceChange := (currentPrice -. avgPrice) /. avgPrice in
        if avgPriceChange >. profitThreshold then SELL else NEUTRAL
  end.

(** [case StrategyType.ARBITRAGE]. *)
Definition case_ARBITRAGE (candles : list MarketCandle)
  (allMarketData : gmap string (list MarketCandle)) : Signal :=
  let symbol := symbol_of candles in
  match allMarketData !! BTC with
  | None => NEUTRAL
  | Some btcData =>
    if (len btcData <? 30)%Z || no_symbol symbol then NEUTRAL
    else if symbol_is symbol BTC then NEUTRAL
    else
      let btcCloses := closes_of btcData in
      let assetCloses := closes_of candles in
      let period := 20%Z in
      let startIdx := Z.max 1 (len btcCloses - period) in
      let btcReturns :=
        map (fun i => (get btcCloses i -. get btcCloses (i - 1))
                      /. get btcCloses (i - 1))
            (range startIdx (len btcCloses)) in
      if (len btcReturns =? 0)%Z then NEUTRAL
      else
        let avgRet := sum btcReturns /. ofZ (len btcReturns) in
        let variance :=
          fold_left (fun a b => a +. Math_pow2 (b -. avgRet))
            btcReturns (Fin 0) /. ofZ (len btcReturns) in
        let btcVolatility := Math_sqrt variance in
        let assetVolumes :=
          map (fun c => Fin (volume c)) (slice_from (- period) candles) in
        if (len assetVolumes =? 0)%Z then NEUTRAL
        else
          let avgVol := sum assetVolumes /. ofZ (len assetVolumes) in
          let currentVol := volume_at candles (len candles - 1) in
          if currentVol <. avgVol *. Fin 0.4 then NEUTRAL
          else
            let lookback := 5%Z in
            let currentBtcPrice := get btcCloses (len btcCloses - 1) in
            let prevBtcPrice :=
              get btcCloses (len btcCloses - 1 - lookback) in
            let currentAssetPrice := get assetCloses (len assetCloses - 1) in
            let prevAssetPrice :=
              get assetCloses (len assetCloses - 1 - lookback) in
            if falsy prevBtcPrice || falsy prevAssetPrice then NEUTRAL
            else
              let btcReturn :=
                (currentBtcPrice -. prevBtcPrice) /. prevBtcPrice in
              let assetReturn :=
                (currentAssetPrice -. prevAssetPrice) /. prevAssetPrice in
              let volatilityThreshold :=
                btcVolatility *. Math_sqrt (ofZ lookback) *. Fin 1.5 in
              let minMoveThreshold :=
                Math_max (Fin 0.0035) volatilityThreshold in
              if (btcReturn >. minMoveThreshold)
                 && (assetReturn <. btcReturn *. Fin 0.5)
              then BUY
              else if (btcReturn <. neg minMoveThreshold)
                      && (assetReturn >. btcReturn *. Fin 0.5)
              then SELL
              else NEUTRAL
  end.

(** Individual strategy signal generator.  The [default] branch of the
    source is unreachable for the seven members of the enumeration. *)
Definition getStrategySignal (strategy : StrategyType)
  (candles : list MarketCandle) (activePositions : list Trade)
  (allMarketData : gmap string (list MarketCandle))
  (params : StrategyParameters) : Signal :=
  match strategy with
  | MA_CROSSOVER => case_MA_CROSSOVER candles params
  | EMA_CROSSOVER => case_EMA_CROSSOVER candles params
  | RSI_REVERSION => case_RSI_REVERSION candles params
  | BOLLINGER_BREAKOUT => case_BOLLINGER_BREAKOUT candles params
  | MACD_TREND => case_MACD_TREND candles params
  | MARTINGALE => case_MARTINGALE candles activePositions params
  | ARBITRAGE => case_ARBITRAGE candles allMarketData
  end.

Record BreakdownItem : Type := {
  b_type : StrategyType;
  b_signal : Signal;
  b_weight : Q
}.

Record CompositeResult : Type := {
  signal : Signal;
  score : number;
  breakdown : list BreakdownItem
}.

(** The running totals of the [forEach] over the enabled strategies. *)
Record Totals : Type := {
  totalScore : number;
  totalWeight : number;
  items : list BreakdownItem
}.

(** The callback of the [forEach]. *)
Definition tally (candles : list MarketCandle) (activePositions : list Trade)
  (allMarketData : gmap string (list MarketCandle))
  (params : StrategyParameters)
  (acc : Totals) (strategy : StrategyConfigItem) : Totals :=
  let rawSignal :=
    getStrategySignal (sc_type strategy) candles activePositions
      allMarketData params in
  {| totalScore :=
       totalScore acc +. numericSignal rawSignal *. Fin (weight strategy);
     totalWeight := totalWeight acc +. Fin (weight strategy);
     items := items acc ++
       [{| b_type := sc_type strategy; b_signal := rawSignal;
           b_weight := weight strategy |}] |}.

Definition accumulate (strategies : list StrategyConfigItem)
  (candles : list MarketCandle) (activePositions : list Trade)
  (allMarketData : gmap string (list MarketCandle))
  (params : StrategyParameters) : Totals :=
  fold_left (tally candles activePositions allMarketData params)
    (List.filter enabled strategies)
    {| totalScore := Fin 0; totalWeight := Fin 0; items := [] |}.

(** Composite signal generator (weighted average). *)
Definition getCompositeStrategySignal (strategies : list StrategyConfigItem)
  (candles : list MarketCandle) (activePositions : list Trade)
  (allMarketData : gmap string (list MarketCandle))
  (params : StrategyParameters) : CompositeResult :=
  let t := accumulate strategies candles activePositions allMarketData params in
  if totalWeight t ===. Fin 0
  then {| signal := NEUTRAL; score := Fin 0; breakdown := items t |}
  else
    let finalScore := totalScore t /. totalWeight t in
    {| signal := finalSignal finalScore; score := finalScore;
       breakdown := items t |}.

End WithMath.
End StrategyService.

(** ** The strategy service with the regime-aware composite
    ([src/unnamed/part_001]) *)

Module RegimeService.
Section WithMath.
Context `{MathLib}.

Inductive MarketRegimeType : Type :=
| TRENDING_UP
| TRENDING_DOWN
| RANGING
| VOLATILE.

Record MarketRegime : Type := {
  r_type : MarketRegimeType;
  volatility : number;
  trendStrength : number;
  description : string
}.

Definition calculateStdDev (data : list number) : number :=
  let mean := sum data /. ofZ (len data) in
  let variance :=
    fold_left (fun a b => a +. Math_pow2 (b -. mean)) data (Fin 0)
    /. ofZ (len data) in
  Math_sqrt variance.

(** The volatility score of [analyzeMarketRegime]. *)
Definition volatility_score (closes : list number) : number :=
  let period := 20%Z in
  let returns :=
    map (fun i => (get closes i -. get closes (i - 1)) /. get closes (i - 1))
        (range 1 (len closes)) in
  let recentReturns := slice_from (- period) returns in
  let volRaw := calculateStdDev recentReturns *. Math_sqrt (ofZ period) in
  Math_min (Fin 100) (volRaw *. Fin 10000).

(** The trend-strength score of [analyzeMarketRegime]. *)
Definition trend_score (closes : list number) : number :=
  let shortMa := calculateSMA closes 7 in
  let longMa := calculateSMA closes 25 in
  let gap := (shortMa -. longMa) /. longMa in
  Math_min (Fin 100) (Math_abs gap *. Fin 5000).

Definition analyzeMarketRegime (candles : list MarketCandle) : MarketRegime :=
  if (len candles <? 30)%Z
  then {| r_type := RANGING; volatility := Fin 0; trendStrength := Fin 0;
          description := "Insufficient Data" |}
  else
    let closes := closes_of candles in
    let volatilityScore := volatility_score closes in
    let shortMa := calculateSMA closes 7 in
    let longMa := calculateSMA closes 25 in
    let trendScore := trend_score closes in
    let '(type, description) :=
      if volatilityScore >. Fin 60
      then (VOLATILE, "高波动剧烈震荡"%string)
      else if trendScore >. Fin 20
      then (if shortMa >. longMa
            then (TRENDING_UP, "强势多头趋势"%string)
            else (TRENDING_DOWN, "强势空头趋势"%string))
      else (RANGING, "横盘整理 (Consolidation)"%string) in
    {| r_type := type; volatility := volatilityScore;
       trendStrength := trendScore; description := description |}.

(** [regime.type.includes('TRENDING')]. *)
Definition is_trending (t : MarketRegimeType) : bool :=
  match t with TRENDING_UP | TRENDING_DOWN => true | _ => false end.

Definition is_ranging (t : MarketRegimeType) : bool :=
  match t with RANGING => true | _ => false end.

Definition is_volatile (t : MarketRegimeType) : bool :=
  match t with VOLATILE => true | _ => false end.

(** The result of [getStrategyInsight].  The two display fields of the
    source, [metrics] and [tuningAction] (labels and formatted numbers for
    the dashboard), are left out. *)
Record RawInsight : Type := {
  i_type : StrategyType;
  i_signal : Signal;
  rawScore : number
}.

Definition insight_MA_CROSSOVER (closes : list number)
  (params : StrategyParameters) : Signal * number :=
  let maFast := calculateSMA closes (fastPeriod params) in
  let maSlow := calculateSMA closes (slowPeriod params) in
  let spread := ((maFast -. maSlow) /. maSlow) *. Fin 100 in
  if (maFast >. maSlow) && (spread >. Fin 0.05) then (BUY, Fin 0.8)
  else if (maFast <. maSlow) && (spread <. Fin (-0.05)) then (SELL, Fin (-0.8))
  else (NEUTRAL, Fin 0).

(** The regime-dependent RSI thresholds [(buyThresh, sellThresh)]. *)
Definition rsi_thresholds (params : StrategyParameters)
  (regime : MarketRegime) : number * number :=
  let buyThresh := Fin (rsiOversold params) in
  let sellThresh := Fin (rsiOverbought params) in
  let trendOffset := Math_floor (trendStrength regime /. Fin 5) in
  match r_type regime with
  | TRENDING_UP => (buyThresh, sellThresh +. (Fin 5 +. trendOffset))
  | TRENDING_DOWN => (buyThresh -. (Fin 5 +. trendOffset), sellThresh)
  | VOLATILE => (buyThresh -. Fin 5, sellThresh +. Fin 5)
  | RANGING => (buyThresh, sellThresh)
  end.

Definition insight_RSI_REVERSION (candles : list MarketCandle)
  (params : StrategyParameters) (regime : MarketRegime) : Signal * number :=
  let rsi := calculateRSI candles (rsiPeriod params) in
  let '(buyThresh, sellThresh) := rsi_thresholds params regime in
  if rsi <. buyThresh then (BUY, Fin 1)
  else if rsi >. sellThresh then (SELL, Fin (-1))
  else (NEUTRAL, Fin 0).

Definition insight_BOLLINGER_BREAKOUT (closes : list number)
  (params : StrategyParameters) : Signal * number :=
  let currentPrice := get closes (len closes - 1) in
  let sma := calculateSMA closes (bbPeriod params) in
  let slice := slice_from (- bbPeriod params) closes in
  let variance :=
    fold_left (fun a b => a +. Math_pow2 (b -. sma)) slice (Fin 0)
    /. ofZ (bbPeriod params) in
  let stdDev := Math_sqrt variance in
  let upper := sma +. stdDev *. Fin (bbStdDev params) in
  let lower := sma -. stdDev *. Fin (bbStdDev params) in
  if currentPrice <. lower then (BUY, Fin 1)
  else if currentPrice >. upper then (SELL, Fin (-1))
  else (NEUTRAL, Fin 0).

Definition insight_MACD_TREND (closes : list number)
  (params : StrategyParameters) : Signal * number :=
  let emaFast := calculateEMASeries closes (macdFast params) in
  let emaSlow := calculateEMASeries closes (macdSlow params) in
  let macdLine :=
    get emaFast (len emaFast - 1) -. get emaSlow (len emaSlow - 1) in
  let macdSeries :=
    map (fun i => get emaFast i -. get emaSlow i) (range 0 (len emaFast)) in
  let signalSeries := calculateEMASeries macdSeries (macdSignal params) in
  let signalLine := get signalSeries (len signalSeries - 1) in
  let hist := macdLine -. signalLine in
  let r := (NEUTRAL, Fin 0) in
  let r := if (hist >. Fin 0) && (macdLine >. Fin 0)
           then (BUY, Fin 0.7) else r in
  let r := if (hist <. Fin 0) && (macdLine <. Fin 0)
           then (SELL, Fin (-0.7)) else r in
  r.

(** Single strategy analysis.  [activePositions] and [allMarketData] are
    parameters the source never reads. *)
Definition getStrategyInsight (strategy : StrategyType)
  (candles : list MarketCandle) (activePositions : list Trade)
  (allMarketData : gmap string (list MarketCandle))
  (params : StrategyParameters) (regime : MarketRegime) : RawInsight :=
  let closes := closes_of candles in
  let '(signal, rawScore) :=
    match strategy with
    | MA_CROSSOVER => insight_MA_CROSSOVER closes params
    | RSI_REVERSION => insight_RSI_REVERSION candles params regime
    | BOLLINGER_BREAKOUT => insight_BOLLINGER_BREAKOUT closes params
    | MACD_TREND => insight_MACD_TREND closes params
    | EMA_CROSSOVER | MARTINGALE | ARBITRAGE => (NEUTRAL, Fin 0)
    end in
  {| i_type := strategy; i_signal := signal; rawScore := rawScore |}.

Definition is_trend_strategy (t : StrategyType) : bool :=
  match t with
  | MA_CROSSOVER | EMA_CROSSOVER | MACD_TREND => true
  | _ => false
  end.

Definition is_reversion_strategy (t : StrategyType) : bool :=
  match t with
  | RSI_REVERSION | BOLLINGER_BREAKOUT => true
  | _ => false
  end.

(** The auto-tuning block of the composite: the adjusted weight of one
    configuration item under a regime. *)
Definition autoTune (type : StrategyType) (regime : MarketRegime)
  (baseWeight : Q) : number :=
  let adjustedWeight := Fin baseWeight in
  let adjustedWeight :=
    if is_trend_strategy type
    then (if is_trending (r_type regime) then adjustedWeight *. Fin 1.5
          else if is_ranging (r_type regime) then adjustedWeight *. Fin 0.5
          else adjustedWeight)
    else adjustedWeight in
  let adjustedWeight :=
    if is_reversion_strategy type
    then (if is_ranging (r_type regime) then adjustedWeight *. Fin 1.5
          else if trendStrength regime >. Fin 70
          then adjustedWeight *. Fin 0.5
          else adjustedWeight)
    else adjustedWeight in
  let adjustedWeight :=
    if is_volatile (r_type regime)
    then (match type with
          | MA_CROSSOVER => adjustedWeight *. Fin 0.7
          | _ => adjustedWeight
          end)
    else adjustedWeight in
  toFixed2 adjustedWeight.

Record StrategyInsight : Type := {
  raw : RawInsight;
  baseWeight : Q;
  adjustedWeight : number
}.

Record CompositeAnalysisResult : Type := {
  signal : Signal;
  score : number;
  regime : MarketRegime;
  insights : list StrategyInsight
}.

Record Totals : Type := {
  totalScore : number;
  totalWeight : number;
  items : list StrategyInsight
}.

(** The callback of the [forEach]. *)
Definition tally (regime : MarketRegime)
  (candles : list MarketCandle) (activePositions : list Trade)
  (allMarketData : gmap string (list MarketCandle))
  (params : StrategyParameters)
  (acc : Totals) (configItem : StrategyConfigItem) : Totals :=
  let rawInsight :=
    getStrategyInsight (sc_type configItem) candles activePositions
      allMarketData params regime in
  let adjustedWeight :=
    autoTune (sc_type configItem) regime (weight configItem) in
  {| totalScore :=
       totalScore acc +. numericSignal (i_signal rawInsight) *. adjustedWeight;
     totalWeight := totalWeight acc +. adjustedWeight;
     items := items acc ++
       [{| raw := rawInsight; baseWeight := weight configItem;
           adjustedWeight := adjustedWeight |}] |}.

Definition accumulate (regime : MarketRegime)
  (strategies : list StrategyConfigItem)
  (candles : list MarketCandle) (activePositions : list Trade)
  (allMarketData : gmap string (list MarketCandle))
  (params : StrategyParameters) : Totals :=
  fold_left (tally regime candles activePositions allMarketData params)
    (List.filter enabled strategies)
    {| totalScore := Fin 0; totalWeight := Fin 0; items := [] |}.

(** Composite system. *)
Definition getCompositeStrategySignal (strategies : list StrategyConfigItem)
  (candles : list MarketCandle) (activePositions : list Trade)
  (allMarketData : gmap string (list MarketCandle))
  (params : StrategyParameters) : CompositeAnalysisResult :=
  let regime := analyzeMarketRegime candles in
  let t :=
    accumulate regime strategies candles activePositions allMarketData
      params in
  let finalScore :=
    if totalWeight t >. Fin 0 then totalScore t /. totalWeight t
    else Fin 0 in
  {| signal := finalSignal finalScore; score := finalScore;
     regime := regime; insights := items t |}.

End WithMath.
End RegimeService.

(** ** The candle history kept by the application ([src/App.tsx])

    Step 1 of [processMarketTick]: the history of the candle's symbol is
    copied, a candle with the timestamp of the last one replaces it, any
    other candle is pushed, and the oldest candle is shifted out once the
    history exceeds 400. *)
Module App.

Definition updateHistory (oldData : list MarketCandle)
  (candle : MarketCandle) : list MarketCandle :=
  let pushed :=
    let newData := oldData ++ [candle] in
    if (len newData >? 400)%Z then tl newData else newData in
  match last oldData with
  | Some lastCandle =>
      if Qeq_bool (timestamp lastCandle) (timestamp candle)
      then removelast oldData ++ [candle]
      else pushed
  | None => pushed
  end.

(** [{ ...currentState.marketData, [symbol]: newData }] with
    [oldData = currentState.marketData[symbol] || []]. *)
Definition updateMarketData (marketData : gmap string (list MarketCandle))
  (candle : MarketCandle) : gmap string (list MarketCandle) :=
  let oldData := default [] (marketData !! symbol candle) in
  <[symbol candle := updateHistory oldData candle]> marketData.

End App.

(** ** Vocabulary of the statements *)

(** Two numbers are the same value. *)
Definition num_eq (x y : number) : Prop :=
  match x, y with
  | Fin a, Fin b => (a == b)%Q
  | PosInf, PosInf | NegInf, NegInf | NaN, NaN => True
  | _, _ => False
  end.

(** A finite number within [[lo, hi]]. *)
Definition within (lo hi : Q) (x : number) : Prop :=
  exists q, x = Fin q /\ (lo <= q <= hi)%Q.

(** The close of the candle at index [i], for [i] inside the array. *)
Definition closeQ (candles : list MarketCandle) (i : Z) : Q :=
  nth (Z.to_nat i) (map close candles) 0%Q.

(** A candle that trades [sym] at [c] with volume [v]. *)
Definition candle (sym : string) (c v : Q) : MarketCandle :=
  {| symbol := sym; timestamp := 0; open := c; high := c; low := c;
     close := c; volume := v |}.

(** The default parameter record of the application ([src/App.tsx]). *)
Definition defaultParams : StrategyParameters :=
  {| fastPeriod := 7; slowPeriod := 25;
     rsiPeriod := 14; rsiOverbought := 70; rsiOversold := 30;
     bbPeriod := 20; bbStdDev := 2;
     macdFast := 12; macdSlow := 26; macdSignal := 9;
     martingalePriceDrop := 1.5; martingaleProfitTarget := 2.5;
     martingaleVolumeMultiplier := 2 |}.

(** Fifteen candles whose close falls by one each bar, from 100 to 86. *)
Definition falling : list MarketCandle :=
  map (fun k => candle "ETH" (inject_Z (100 - Z.of_nat k)) 10) (seq 0 15).

(** The history a strategy needs before it leaves its insufficient-data
    answer; Martingale names none. *)
Definition below_minimum (strategy : StrategyType)
  (candles : list MarketCandle)
  (allMarketData : gmap string (list MarketCandle))
  (params : StrategyParameters) : Prop :=
  match strategy with
  | MA_CROSSOVER => (len candles < slowPeriod params + 5)%Z
  | EMA_CROSSOVER => (len candles < slowPeriod params + 1)%Z
  | RSI_REVERSION => (len candles < rsiPeriod params + 1)%Z
  | BOLLINGER_BREAKOUT => (len candles < bbPeriod params)%Z
  | MACD_TREND => (len candles < macdSlow params + macdSignal params)%Z
  | ARBITRAGE =>
      match allMarketData !! BTC with
      | None => True
      | Some btcData => (len btcData < 30)%Z
      end
  | MARTINGALE => False
  end.

(** The regime reported on a short history. *)
Definition quietRegime : RegimeService.MarketRegime :=
  {| RegimeService.r_type := RegimeService.RANGING;
     RegimeService.volatility := Fin 0;
     RegimeService.trendStrength := Fin 0;
     RegimeService.description := "Insufficient Data" |}.

(** Running totals of a composite that are finite, with the score no
    larger than the weight, and a zero weight only before any vote. *)
Definition balanced (s w : number) (no_items : Prop) : Prop :=
  exists qs qw : Q,
    s = Fin qs /\ w = Fin qw
    /\ (- qw <= qs <= qw)%Q /\ (0 <= qw)%Q /\ ((qw == 0)%Q -> no_items).

(** Thirty candles at one price. *)
Definition flat30 : list MarketCandle := repeat (candle "ETH" 2000 10) 30.

(** The most recent close. *)
Definition current_price (candles : list MarketCandle) : number :=
  get (closes_of candles) (len candles - 1).

(** The open positions on the asset of the candles. *)
Definition open_lots (candles : list MarketCandle) (positions : list Trade)
  : list Trade :=
  List.filter
    (fun p => symbol_is (symbol_of candles) (t_symbol p) && is_open p)
    positions.

(** The change from [base] to [now], as a fraction of [base]. *)
Definition relative_change (base now : number) : number :=
  (now -. base) /. base.

(** The volume-weighted average entry price of a list of lots. *)
Definition average_entry (lots : list Trade) : number :=
  sum (map (fun p => Fin (amount p) *. Fin (price p)) lots)
  /. sum (map (fun p => Fin (amount p)) lots).

(** Three candles whose RSI over two bars is 25: one gain of 1, one loss
    of 3. *)
Definition dip : list MarketCandle :=
  [candle "ETH" 10 1; candle "ETH" 11 1; candle "ETH" 8 1].

Definition dipParams : StrategyParameters :=
  {| fastPeriod := 7; slowPeriod := 25;
     rsiPeriod := 2; rsiOverbought := 70; rsiOversold := 30;
     bbPeriod := 20; bbStdDev := 2;
     macdFast := 12; macdSlow := 26; macdSignal := 9;
     martingalePriceDrop := 1.5; martingaleProfitTarget := 2.5;
     martingaleVolumeMultiplier := 2 |}.

(** The return over the last [n] bars of a series of closes. *)
Definition bar_return (closes : list number) (n : Z) : number :=
  relative_change (get closes (len closes - 1 - n))
    (get closes (len closes - 1)).

(** The last [n] one-period returns of a series of closes. *)
Definition last_returns (closes : list number) (n : Z) : list number :=
  map (fun i => relative_change (get closes (i - 1)) (get closes i))
      (range (Z.max 1 (len closes - n)) (len closes)).

(** The liquidity screen: the most recent volume is below 40% of the
    average volume of the trailing 20 bars. *)
Definition liquidity_low (candles : list MarketCandle) : bool :=
  let volumes := map (fun c => Fin (volume c)) (slice_from (-20) candles) in
  volume_at candles (len candles - 1)
  <. (sum volumes /. ofZ (len volumes)) *. Fin 0.4.

(** The move the reference asset must make: the larger of 0.35% and
    [stddev(last 20 one-period returns) * sqrt 5 * 1.5]. *)
Definition arbitrage_threshold `{MathLib} (reference : list number)
  : number :=
  Math_max (Fin 0.0035)
    (RegimeService.calculateStdDev (last_returns reference 20)
     *. Math_sqrt (Fin 5) *. Fin 1.5).

(** A reference history that ends on a rise of 1% over its last bar, and
    the market data that holds it. *)
Definition leaderUp : list MarketCandle :=
  repeat (candle "BTC" 100 5) 29 ++ [candle "BTC" 101 5].

Definition leaderMarket : gmap string (list MarketCandle) :=
  {[ BTC := leaderUp ]}.

(** An open long position of [a] units of [sym] entered at [p]. *)
Definition lot (sym : string) (p a : Q) : Trade :=
  {| t_id := "lot"; t_symbol := sym; t_type := BUY; price := p; amount := a;
     leverage := 1; t_timestamp := 0; status := OPEN;
     t_strategy := "MARTINGALE" |}.

(** A concrete [Math.sqrt] for running the functions: the square root
    rounded down to six decimals. *)
Definition sqrt_approx (q : Q) : Q :=
  (inject_Z (Z.sqrt (Qnum q * Zpos (Qden q) * 10 ^ 12))
   / inject_Z (Zpos (Qden q) * 10 ^ 6))%Q.

Definition approxMath : MathLib := {| Qsqrt := sqrt_approx |}.

(** The sum of a list of rationals, added left to right as [reduce] does. *)
Definition Qsum (qs : list Q) : Q := fold_left Qplus qs 0%Q.

(** [Math.sqrt] is non-negative on non-negative arguments. *)
Definition sqrt_nonneg `{MathLib} : Prop :=
  forall q : Q, (0 <= q)%Q -> (0 <= Qsqrt q)%Q.

(** [Math.sqrt] of zero is zero. *)
Definition sqrt_zero `{MathLib} : Prop :=
  forall q : Q, (q == 0)%Q -> (Qsqrt q == 0)%Q.

(** The one factor that auto-tuning applies to a base weight: the table of
    strategy family against regime. *)
Definition tuning_factor (type : StrategyType)
  (regime : RegimeService.MarketRegime) : Q :=
  match type with
  | MA_CROSSOVER =>
      match RegimeService.r_type regime with
      | RegimeService.TRENDING_UP | RegimeService.TRENDING_DOWN => 1.5
      | RegimeService.RANGING => 0.5
      | RegimeService.VOLATILE => 0.7
      end
  | EMA_CROSSOVER | MACD_TREND =>
      match RegimeService.r_type regime with
      | RegimeService.TRENDING_UP | RegimeService.TRENDING_DOWN => 1.5
      | RegimeService.RANGING => 0.5
      | RegimeService.VOLATILE => 1
      end
  | RSI_REVERSION | BOLLINGER_BREAKOUT =>
      match RegimeService.r_type regime with
      | RegimeService.RANGING => 1.5
      | _ => if RegimeService.trendStrength regime >. Fin 70 then 0.5 else 1
      end
  | MARTINGALE | ARBITRAGE => 1
  end%Q.

(** An up-trend of strength 40. *)
Definition upTrend : RegimeService.MarketRegime :=
  {| RegimeService.r_type := RegimeService.TRENDING_UP;
     RegimeService.volatility := Fin 10;
     RegimeService.trendStrength := Fin 40;
     RegimeService.description := "强势多头趋势" |}.

(** The mean and the population variance of a list of rationals. *)
Definition Qmean (ws : list Q) : Q := (Qsum ws / inject_Z (len ws))%Q.

Definition Qvariance (ws : list Q) : Q :=
  (fold_left (fun a b => a + (b + - Qmean ws) * (b + - Qmean ws)) ws 0
   / inject_Z (len ws))%Q.

(** The close-to-close returns of a list of closes. *)
Definition Qreturns (closes : list Q) : list Q :=
  map (fun i : Z =>
         ((nth (Z.to_nat i) closes 0 + - nth (Z.to_nat (i - 1)) closes 0)
          / nth (Z.to_nat (i - 1)) closes 0)%Q)
      (range 1 (len closes)).

(** The vote of a signal as a rational. *)
Definition vote (s : Signal) : Q :=
  match s with BUY => 1 | SELL => -1 | NEUTRAL => 0 end%Q.

(** The auto-tuned weight as a rational (it is always finite). *)
Definition adjusted (type : StrategyType)
  (regime : RegimeService.MarketRegime) (w : Q) : Q :=
  match RegimeService.autoTune type regime w with
  | Fin a => a
  | _ => 0%Q
  end.

(** Three strategies, one of them disabled. *)
Definition mixA : list StrategyConfigItem :=
  [{| sc_type := RSI_REVERSION; enabled := true; weight := 5 |};
   {| sc_type := MACD_TREND; enabled := false; weight := 9 |};
   {| sc_type := MARTINGALE; enabled := true; weight := 3 |}].

(** Timestamps strictly increasing along a history. *)
Definition chronological (history : list MarketCandle) : Prop :=
  StronglySorted (fun a b => (timestamp a < timestamp b)%Q) history.

(** A candle of symbol [sym] stamped [t], closing at [c]. *)
Definition bar (sym : string) (t c : Q) : MarketCandle :=
  {| symbol := sym; timestamp := t; open := c; high := c; low := c;
     close := c; volume := 10 |}.

(** ** Comparisons on rationals *)

Lemma Qltb_lt (x y : Q) : Qltb x y = true <-> (x < y)%Q.
Proof.
  unfold Qltb. rewrite negb_true_iff. split.
  - intros Hb. apply Qnot_le_lt. intros Hle.
    apply Qle_bool_iff in Hle. congruence.
  - intros Hlt. destruct (Qle_bool y x) eqn:E; [|reflexivity].
    apply Qle_bool_iff in E. lra.
Qed.

Lemma Qltb_ge (x y : Q) : Qltb x y = false <-> (y <= x)%Q.
Proof.
  unfold Qltb. rewrite negb_false_iff. apply Qle_bool_iff.
Qed.

Lemma Qeq_bool_false (x y : Q) : Qeq_bool x y = false <-> ~ (x == y)%Q.
Proof.
  split.
  - intros Hb Heq. apply Qeq_bool_iff in Heq. congruence.
  - intros Hne. destruct (Qeq_bool x y) eqn:E; [|reflexivity].
    apply Qeq_bool_iff in E. contradiction.
Qed.

Lemma Qle_bool_false (x y : Q) : Qle_bool x y = false <-> (y < x)%Q.
Proof.
  split.
  - intros Hb. apply Qnot_le_lt. intros Hle.
    apply Qle_bool_iff in Hle. congruence.
  - intros Hlt. destruct (Qle_bool x y) eqn:E; [|reflexivity].
    apply Qle_bool_iff in E. lra.
Qed.

(** ** Arrays *)

Lemma len_nonneg {A} (l : list A) : (0 <= len l)%Z.
Proof. unfold len. lia. Qed.

Lemma get_nth (arr : list number) (i : Z) :
  (0 <= i)%Z -> get arr i = nth (Z.to_nat i) arr NaN.
Proof.
  intros Hi. unfold get. destruct (i <? 0)%Z eqn:E; [lia | reflexivity].
Qed.

Lemma get_of_nat (arr : list number) (n : nat) :
  get arr (Z.of_nat n) = nth n arr NaN.
Proof. rewrite get_nth by lia. now rewrite Nat2Z.id. Qed.

Lemma close_at_inside (candles : list MarketCandle) (i : Z) :
  (0 <= i < len candles)%Z -> close_at candles i = Fin (closeQ candles i).
Proof.
  intros [Hlo Hhi]. unfold close_at, closes_of, closeQ.
  rewrite get_nth by assumption.
  assert (Hn : (Z.to_nat i < length candles)%nat) by (unfold len in Hhi; lia).
  revert Hn. generalize (Z.to_nat i). clear.
  induction candles as [|c cs IH]; intros [|n] Hn; simpl in *;
    try lia; [reflexivity | apply IH; lia].
Qed.

Lemma in_range (start stop i : Z) :
  In i (range start stop) <-> (start <= i < stop)%Z.
Proof.
  unfold range. rewrite in_map_iff. split.
  - intros (k & <- & Hk). apply in_seq in Hk. lia.
  - intros Hi. exists (Z.to_nat (i - start)). split; [lia|].
    apply in_seq. lia.
Qed.

(** ** The EMA series *)

Lemma ema_loop_length (k prev : number) (rest : list number) :
  length (ema_loop k prev rest) = length rest.
Proof.
  revert prev. induction rest as [|d rest IH]; intros prev; simpl;
    [reflexivity | now rewrite IH].
Qed.

Lemma ema_loop_step (k : number) (rest : list number) :
  forall (prev d : number) (n : nat),
    (n < length rest)%nat ->
    nth (S n) (prev :: ema_loop k prev rest) NaN
    = nth (S n) (d :: rest) NaN *. k
      +. nth n (prev :: ema_loop k prev rest) NaN *. (Fin 1 -. k).
Proof.
  induction rest as [|x rest IH]; intros prev d n Hn; simpl in Hn; [lia|].
  destruct n as [|n]; [reflexivity|].
  cbn [ema_loop].
  change (nth (S (S n)) (prev :: ?e :: ?l) NaN) with (nth (S n) (e :: l) NaN).
  change (nth (S (S n)) (d :: x :: rest) NaN) with (nth (S n) (x :: rest) NaN).
  change (nth (S n) (prev :: ?e :: ?l) NaN) with (nth n (e :: l) NaN).
  apply IH. lia.
Qed.

(** C9 (the parts that hold for every period).  [calculateEMASeries]
    returns one value per input value, empty for the empty input; the first
    value is the first input value; each later value is
    [data[i]*k + ema[i-1]*(1-k)] with [k = 2/(period+1)].  Nothing is stated
    of a constant series: the two evaluations that follow show why. *)
Theorem calculateEMASeries_series (data : list number) (period : Z) :
  let ema := calculateEMASeries data period in
  let k := Fin 2 /. ofZ (period + 1) in
  length ema = length data
  /\ (data = [] -> ema = [])
  /\ get ema 0 = get data 0
  /\ (forall i : Z, (1 <= i < len data)%Z ->
        get ema i = get data i *. k +. get ema (i - 1) *. (Fin 1 -. k)).
Proof.
  cbv zeta. repeat split.
  - destruct data as [|d0 rest]; simpl; [reflexivity|].
    now rewrite ema_loop_length.
  - intros ->. reflexivity.
  - destruct data; reflexivity.
  - intros i Hi. destruct data as [|d0 rest].
    + unfold len in Hi. simpl in Hi. lia.
    + unfold calculateEMASeries.
      assert (Hn : (Z.to_nat (i - 1) < length rest)%nat)
        by (unfold len in Hi; simpl in Hi; lia).
      remember (Z.to_nat (i - 1)) as n eqn:En.
      assert (Ei : i = Z.of_nat (S n)) by lia. rewrite Ei.
      replace (Z.of_nat (S n) - 1)%Z with (Z.of_nat n) by lia.
      rewrite !get_of_nat. now apply ema_loop_step.
Qed.

Lemma calculateEMASeries_series_witness :
  let ema := calculateEMASeries [Fin 96000; Fin 96100; Fin 95900] 3 in
  get ema 1
  = Fin 96100 *. (Fin 2 /. ofZ 4) +. get ema 0 *. (Fin 1 -. Fin 2 /. ofZ 4)
  /\ get ema 2
     = Fin 95900 *. (Fin 2 /. ofZ 4) +. get ema 1 *. (Fin 1 -. Fin 2 /. ofZ 4)
  /\ calculateEMASeries [] 3 = [].
Proof.
  cbv zeta.
  destruct (calculateEMASeries_series [Fin 96000; Fin 96100; Fin 95900] 3)
    as (_ & _ & _ & Hstep).
  destruct (calculateEMASeries_series [] 3) as (_ & Hnil & _).
  split; [|split].
  - apply (Hstep 1%Z). unfold len. simpl. lia.
  - apply (Hstep 2%Z). unfold len. simpl. lia.
  - apply Hnil. reflexivity.
Defined.

(** C9's sentence on constant series fails of the code, in two ways.  At
    period -1, [k] is [2/0 = Infinity] and from the second element on the
    series is [Infinity - Infinity = NaN].  At the ordinary periods the
    program rounds each step of the recurrence: over binary64 the series of
    [[3, 3]] at period 9 is [[3, 3.0000000000000004]], since [0.2] and
    [0.8] are not binary fractions and [3*0.2 + 3*0.8] rounds above 3. *)
Lemma calculateEMASeries_constant_counterexample :
  (calculateEMASeries (repeat (Fin 5) 2) (-1) = [Fin 5; NaN]
   /\ ~ Forall (fun x => num_eq x (Fin 5))
          (calculateEMASeries (repeat (Fin 5) 2) (-1)))
  /\ (Binary64.calculateEMASeries (repeat 3%float 2) 9%float
      = [3%float; 0x1.8000000000001p+1%float]
      /\ ~ Forall (fun x => PrimFloat.eqb x 3%float = true)
             (Binary64.calculateEMASeries (repeat 3%float 2) 9%float)).
Proof.
  split; split.
  - reflexivity.
  - intros Hall. inversion Hall as [|? ? _ Hrest]; subst.
    inversion Hrest as [|? ? Hnan _]; subst. exact Hnan.
  - vm_compute. reflexivity.
  - intros Hall. inversion Hall as [|? ? _ Hrest]; subst.
    inversion Hrest as [|? ? Hthree _]; subst.
    vm_compute in Hthree. discriminate Hthree.
Qed.

(** ** The RSI *)

Lemma rsi_step_inside (candles : list MarketCandle) (g l : Q) (i : Z) :
  (1 <= i < len candles)%Z ->
  rsi_step candles (Fin g, Fin l) i
  = let d := (closeQ candles i + - closeQ candles (i - 1))%Q in
    if Qle_bool 0 d then (Fin (g + d), Fin l) else (Fin g, Fin (l + - d)).
Proof.
  intros Hi. unfold rsi_step.
  rewrite (close_at_inside candles i) by lia.
  rewrite (close_at_inside candles (i - 1)) by lia.
  reflexivity.
Qed.

Lemma rsi_fold_finite (candles : list MarketCandle) (idxs : list Z) :
  (forall i, In i idxs -> (1 <= i < len candles)%Z) ->
  forall g l : Q, (0 <= g)%Q -> (0 <= l)%Q ->
  exists g' l' : Q,
    fold_left (rsi_step candles) idxs (Fin g, Fin l) = (Fin g', Fin l')
    /\ (0 <= g')%Q /\ (0 <= l')%Q.
Proof.
  induction idxs as [|i idxs IH]; intros Hin g l Hg Hl.
  - exists g, l. auto.
  - cbn [fold_left]. rewrite rsi_step_inside by (apply Hin; now left).
    cbv zeta.
    destruct (Qle_bool 0 (closeQ candles i + - closeQ candles (i - 1)))
      eqn:E.
    + apply Qle_bool_iff in E.
      apply IH; [intros; apply Hin; now right | lra | assumption].
    + apply Qle_bool_false in E.
      apply IH; [intros; apply Hin; now right | assumption | lra].
Qed.

Lemma rsi_fold_no_loss (candles : list MarketCandle) (idxs : list Z) :
  (forall i, In i idxs -> (1 <= i < len candles)%Z) ->
  (forall i, In i idxs ->
     (closeQ candles (i - 1) <= closeQ candles i)%Q) ->
  forall g l : Q,
  exists g' : Q,
    fold_left (rsi_step candles) idxs (Fin g, Fin l) = (Fin g', Fin l).
Proof.
  induction idxs as [|i idxs IH]; intros Hin Hup g l.
  - exists g. reflexivity.
  - cbn [fold_left]. rewrite rsi_step_inside by (apply Hin; now left).
    cbv zeta.
    destruct (Qle_bool 0 (closeQ candles i + - closeQ candles (i - 1)))
      eqn:E.
    + apply IH; intros; [apply Hin | apply Hup]; now right.
    + apply Qle_bool_false in E.
      specialize (Hup i (or_introl eq_refl)). lra.
Qed.

(** The loop of [calculateRSI] reads inside the array. *)
Lemma rsi_indices_inside (candles : list MarketCandle) (period : Z) :
  (period + 1 <= len candles)%Z ->
  forall i, In i (range (len candles - period) (len candles)) ->
            (1 <= i < len candles)%Z.
Proof. intros Hlen i Hi. apply in_range in Hi. lia. Qed.

Lemma rsi_value_bounds (g l : Q) :
  (0 <= g)%Q -> (0 < l)%Q ->
  (0 <= 100 + - (100 / (1 + g / l)) <= 100)%Q.
Proof.
  intros Hg Hl.
  assert (H0 : (0 <= g / l)%Q) by (apply Qle_shift_div_l; [assumption | lra]).
  assert (H1 : (0 < 100 / (1 + g / l) <= 100)%Q).
  { split; [apply Qlt_shift_div_l | apply Qle_shift_div_r]; lra. }
  lra.
Qed.

Lemma calculateRSI_short (candles : list MarketCandle) (period : Z) :
  (len candles < period + 1)%Z -> calculateRSI candles period = Fin 50.
Proof.
  intros Hlen. unfold calculateRSI.
  destruct (len candles <? period + 1)%Z eqn:E; [reflexivity | lia].
Qed.

Lemma calculateRSI_no_loss (candles : list MarketCandle) (period : Z) :
  (period + 1 <= len candles)%Z ->
  (forall i : Z, (len candles - period <= i < len candles)%Z ->
     (closeQ candles (i - 1) <= closeQ candles i)%Q) ->
  calculateRSI candles period = Fin 100.
Proof.
  intros Hlen Hup. unfold calculateRSI, rsi_sums.
  destruct (len candles <? period + 1)%Z eqn:E; [lia|].
  destruct (rsi_fold_no_loss candles
              (range (len candles - period) (len candles))
              (rsi_indices_inside candles period Hlen)) with (g := 0%Q)
              (l := 0%Q) as [g' ->].
  - intros i Hi. apply Hup. now apply in_range in Hi.
  - reflexivity.
Qed.

Lemma calculateRSI_within (candles : list MarketCandle) (period : Z) :
  within 0 100 (calculateRSI candles period).
Proof.
  unfold calculateRSI, rsi_sums.
  destruct (len candles <? period + 1)%Z eqn:E.
  - exists 50%Q. split; [reflexivity | lra].
  - destruct (rsi_fold_finite candles
                (range (len candles - period) (len candles))
                (rsi_indices_inside candles period ltac:(lia))
                0%Q 0%Q ltac:(lra) ltac:(lra)) as (g & l & -> & Hg & Hl).
    cbn [seq_num]. destruct (Qeq_bool l 0) eqn:El.
    + exists 100%Q. split; [reflexivity | lra].
    + apply Qeq_bool_false in El.
      assert (Hl' : (0 < l)%Q) by (apply Qle_lteq in Hl; destruct Hl as [|Hl];
        [assumption | symmetry in Hl; contradiction]).
      pose proof (rsi_value_bounds g l Hg Hl') as Hb.
      assert (Hd : Qeq_bool (1 + g / l) 0 = false).
      { apply Qeq_bool_false.
        assert ((0 <= g / l)%Q)
          by (apply Qle_shift_div_l; [assumption | lra]). lra. }
      exists (100 + - (100 / (1 + g / l)))%Q. split; [|exact Hb].
      unfold div at 2. apply Qeq_bool_false in El. rewrite El.
      cbn [add]. unfold div. rewrite Hd.
      reflexivity.
Qed.

(** C6.  [calculateRSI] returns a value in [[0, 100]]; with at least
    [period + 1] candles and no falling close over the last [period] bars it
    returns exactly 100; with fewer than [period + 1] candles it returns
    exactly 50. *)
Theorem calculateRSI_range (candles : list MarketCandle) (period : Z) :
  within 0 100 (calculateRSI candles period)
  /\ ((period + 1 <= len candles)%Z ->
      (forall i : Z, (len candles - period <= i < len candles)%Z ->
         (closeQ candles (i - 1) <= closeQ candles i)%Q) ->
      calculateRSI candles period = Fin 100)
  /\ ((len candles < period + 1)%Z -> calculateRSI candles period = Fin 50).
Proof.
  split; [apply calculateRSI_within|].
  split; [apply calculateRSI_no_loss | apply calculateRSI_short].
Qed.

Lemma calculateRSI_range_witness :
  calculateRSI [candle "ETH" 5 1; candle "ETH" 6 1; candle "ETH" 6 1] 2
  = Fin 100
  /\ calculateRSI [candle "ETH" 5 1] 2 = Fin 50.
Proof.
  split.
  - apply (proj1 (proj2 (calculateRSI_range
             [candle "ETH" 5 1; candle "ETH" 6 1; candle "ETH" 6 1] 2))).
    + vm_compute. discriminate.
    + intros i Hi. change (len _) with 3%Z in Hi.
      assert (Ei : i = 1%Z \/ i = 2%Z) by lia.
      destruct Ei as [-> | ->]; vm_compute; discriminate.
  - apply (proj2 (proj2 (calculateRSI_range [candle "ETH" 5 1] 2))).
    vm_compute. reflexivity.
Defined.

Lemma closeQ_In (candles : list MarketCandle) (i : Z) :
  (0 <= i < len candles)%Z ->
  exists x, In x candles /\ closeQ candles i = close x.
Proof.
  intros Hi. unfold closeQ.
  assert (Hn : (Z.to_nat i < length (map close candles))%nat)
    by (rewrite length_map; unfold len in Hi; lia).
  pose proof (nth_In (map close candles) 0%Q Hn) as Hin.
  apply in_map_iff in Hin. destruct Hin as (x & Hx & Hin).
  exists x. split; [assumption | now symmetry].
Qed.

Lemma calculateRSI_flat (candles : list MarketCandle) (period : Z) (c : Q) :
  (period + 1 <= len candles)%Z ->
  (forall x, In x candles -> (close x == c)%Q) ->
  calculateRSI candles period = Fin 100.
Proof.
  intros Hlen Hflat. apply calculateRSI_no_loss; [assumption|].
  intros i Hi.
  destruct (closeQ_In candles i) as (x & Hx & ->); [lia|].
  destruct (closeQ_In candles (i - 1)) as (y & Hy & ->); [lia|].
  rewrite (Hflat x Hx), (Hflat y Hy). lra.
Qed.

Section RsiReversion.
Context `{MathLib}.

(** C10 (with the bound on the oversold threshold that the code needs).
    On at least [rsiPeriod + 1] candles with equal closes [calculateRSI]
    returns 100, a zero delta counting as a gain; RSI Reversion then returns
    SELL when the overbought threshold is below 100 and the oversold
    threshold, which is tested first, is at most 100. *)
Theorem flat_market_rsi_reversion (candles : list MarketCandle)
  (activePositions : list Trade)
  (allMarketData : gmap string (list MarketCandle))
  (params : StrategyParameters) (c : Q) :
  (rsiPeriod params + 1 <= len candles)%Z ->
  (forall x, In x candles -> (close x == c)%Q) ->
  calculateRSI candles (rsiPeriod params) = Fin 100
  /\ ((rsiOversold params <= 100)%Q -> (rsiOverbought params < 100)%Q ->
      StrategyService.getStrategySignal RSI_REVERSION candles activePositions
        allMarketData params = SELL).
Proof.
  intros Hlen Hflat.
  pose proof (calculateRSI_flat candles _ c Hlen Hflat) as Hrsi.
  split; [exact Hrsi|]. intros Hos Hob.
  cbn [StrategyService.getStrategySignal].
  unfold StrategyService.case_RSI_REVERSION. rewrite Hrsi. cbn [lt gt].
  apply Qltb_ge in Hos. apply Qltb_lt in Hob. now rewrite Hos, Hob.
Qed.

End RsiReversion.

Lemma flat_market_rsi_reversion_witness :
  StrategyService.getStrategySignal (H := approxMath) RSI_REVERSION
    (repeat (candle "ETH" 2000 10) 15) [] ∅ defaultParams = SELL.
Proof.
  apply (flat_market_rsi_reversion (H := approxMath)
           (repeat (candle "ETH" 2000 10) 15) [] ∅ defaultParams 2000).
  - vm_compute. discriminate.
  - intros x Hx. apply repeat_spec in Hx. subst x. reflexivity.
  - vm_compute. discriminate.
  - reflexivity.
Defined.

(** C10 as stated fails when the oversold threshold is above 100: the
    oversold test comes first and the flat market is a BUY. *)
Lemma flat_market_rsi_reversion_counterexample :
  let params :=
    {| fastPeriod := 7; slowPeriod := 25;
       rsiPeriod := 2; rsiOverbought := 90; rsiOversold := 150;
       bbPeriod := 20; bbStdDev := 2;
       macdFast := 12; macdSlow := 26; macdSignal := 9;
       martingalePriceDrop := 1.5; martingaleProfitTarget := 2.5;
       martingaleVolumeMultiplier := 2 |} in
  let candles := repeat (candle "ETH" 2000 10) 3 in
  (rsiPeriod params + 1 <= len candles)%Z
  /\ (forall x, In x candles -> (close x == 2000)%Q)
  /\ (rsiOverbought params < 100)%Q
  /\ calculateRSI candles (rsiPeriod params) = Fin 100
  /\ StrategyService.getStrategySignal (H := approxMath) RSI_REVERSION
       candles [] ∅ params = BUY.
Proof.
  cbv zeta. split; [vm_compute; discriminate|].
  split; [intros x Hx; apply repeat_spec in Hx; subst x; reflexivity|].
  split; [reflexivity|]. split; reflexivity.
Qed.

(** ** Insufficient history *)

Lemma len_closes_of (candles : list MarketCandle) :
  len (closes_of candles) = len candles.
Proof. unfold len, closes_of. now rewrite length_map. Qed.

(** Settles a goal whose head is the length guard of a strategy, the
    length being too short by a hypothesis. *)
Ltac length_guard :=
  match goal with
  | |- context [(?n <? ?m)%Z] =>
      destruct (n <? m)%Z eqn:?; [reflexivity | lia]
  end.

Section ShortHistory.
Context `{MathLib}.

(** C2 (with the RSI thresholds on their sides of 50).  On a candle
    sequence shorter than the strategy's minimum, [getStrategySignal]
    returns NEUTRAL; for RSI Reversion, whose insufficient-data RSI is 50,
    this needs [rsiOversold <= 50 <= rsiOverbought], the range the
    configuration panel keeps the two thresholds in. *)
Theorem short_history_neutral (strategy : StrategyType)
  (candles : list MarketCandle) (activePositions : list Trade)
  (allMarketData : gmap string (list MarketCandle))
  (params : StrategyParameters) :
  below_minimum strategy candles allMarketData params ->
  (strategy = RSI_REVERSION ->
   (rsiOversold params <= 50 <= rsiOverbought params)%Q) ->
  StrategyService.getStrategySignal strategy candles activePositions
    allMarketData params = NEUTRAL.
Proof.
  intros Hshort Hrsi. destruct strategy; cbn in Hshort; cbn.
  - unfold StrategyService.case_MA_CROSSOVER. rewrite len_closes_of.
    length_guard.
  - unfold StrategyService.case_RSI_REVERSION.
    rewrite calculateRSI_short by assumption.
    destruct (Hrsi eq_refl) as [Hos Hob]. cbn [lt gt].
    apply Qltb_ge in Hos, Hob. now rewrite Hos, Hob.
  - unfold StrategyService.case_BOLLINGER_BREAKOUT,
      StrategyService.calculateBollingerBands.
    rewrite len_closes_of. length_guard.
  - unfold StrategyService.case_MACD_TREND, StrategyService.calculateMACD.
    rewrite len_closes_of. length_guard.
  - unfold StrategyService.case_EMA_CROSSOVER. rewrite len_closes_of.
    length_guard.
  - contradiction.
  - unfold StrategyService.case_ARBITRAGE.
    destruct (allMarketData !! BTC) as [btcData|]; [|reflexivity].
    length_guard.
Qed.

End ShortHistory.

Lemma short_history_neutral_witness :
  StrategyService.getStrategySignal (H := approxMath) RSI_REVERSION
    (repeat (candle "ETH" 2000 10) 3) [] ∅ defaultParams = NEUTRAL.
Proof.
  apply (short_history_neutral (H := approxMath) RSI_REVERSION
           (repeat (candle "ETH" 2000 10) 3) [] ∅ defaultParams).
  - vm_compute. reflexivity.
  - intros _. split; vm_compute; discriminate.
Defined.

(** C2 as stated fails for RSI Reversion: with no candles at all the RSI is
    the insufficient-data value 50, which an oversold threshold of 60 turns
    into a BUY. *)
Lemma short_history_neutral_counterexample :
  let params :=
    {| fastPeriod := 7; slowPeriod := 25;
       rsiPeriod := 14; rsiOverbought := 70; rsiOversold := 60;
       bbPeriod := 20; bbStdDev := 2;
       macdFast := 12; macdSlow := 26; macdSignal := 9;
       martingalePriceDrop := 1.5; martingaleProfitTarget := 2.5;
       martingaleVolumeMultiplier := 2 |} in
  below_minimum RSI_REVERSION [] ∅ params
  /\ StrategyService.getStrategySignal (H := approxMath) RSI_REVERSION
       [] [] ∅ params = BUY.
Proof.
  cbv zeta. split; [vm_compute; reflexivity | reflexivity].
Qed.

(** ** The signal recorded by the regime-aware composite *)

(** C1 (a defect of the code).  The regime-aware composite takes each
    strategy's signal from [getStrategyInsight], whose [switch] has no case
    for EMA Crossover, Martingale and Correlation Arbitrage: its [default]
    branch leaves their signal NEUTRAL on every input, whatever
    [getStrategySignal] returns for them.  On fifteen falling candles with
    no open position [getStrategySignal] answers BUY for Martingale (the RSI
    is 0, below 30 + 10), and the composite run on that one enabled strategy
    records NEUTRAL for it. *)
Theorem composite_insight_default_branch :
  (forall (H : MathLib) (candles : list MarketCandle)
          (activePositions : list Trade)
          (allMarketData : gmap string (list MarketCandle))
          (params : StrategyParameters)
          (regime : RegimeService.MarketRegime),
      Forall (fun strategy =>
                RegimeService.i_signal
                  (RegimeService.getStrategyInsight strategy candles
                     activePositions allMarketData params regime) = NEUTRAL)
             [EMA_CROSSOVER; MARTINGALE; ARBITRAGE])
  /\ let strategies :=
       [{| sc_type := MARTINGALE; enabled := true; weight := 5 |}] in
     map (fun i => (RegimeService.i_type (RegimeService.raw i),
                    RegimeService.i_signal (RegimeService.raw i)))
         (RegimeService.insights
            (RegimeService.getCompositeStrategySignal (H := approxMath)
               strategies falling [] ∅ defaultParams))
     = [(MARTINGALE, NEUTRAL)]
     /\ StrategyService.getStrategySignal (H := approxMath) MARTINGALE
          falling [] ∅ defaultParams = BUY.
Proof.
  split.
  - intros. repeat constructor.
  - cbv zeta. split; vm_compute; reflexivity.
Qed.

(** ** Rounding to two decimals and the auto-tuned weight *)

Lemma Qround2_nonneg_eq (q : Q) :
  (0 <= q)%Q -> Qround2 q = (inject_Z (Qfloor (q * 100 + 0.5)) / 100)%Q.
Proof.
  intros Hq. unfold Qround2. apply Qltb_ge in Hq. now rewrite Hq.
Qed.

Lemma Qround2_nonneg (q : Q) : (0 <= q)%Q -> (0 <= Qround2 q)%Q.
Proof.
  intros Hq. rewrite Qround2_nonneg_eq by assumption.
  apply Qle_shift_div_l; [reflexivity|]. rewrite Qmult_0_l.
  change 0%Q with (inject_Z 0). rewrite <- Zle_Qle.
  change 0%Z with (Qfloor (inject_Z 0)).
  apply Qfloor_resp_le. change (inject_Z 0) with 0%Q. lra.
Qed.

Lemma Qround2_close (q : Q) :
  (0 <= q)%Q -> (q - 0.005 < Qround2 q)%Q.
Proof.
  intros Hq. rewrite Qround2_nonneg_eq by assumption.
  apply Qlt_shift_div_l; [reflexivity|].
  pose proof (Qlt_floor (q * 100 + 0.5)) as Hf.
  rewrite inject_Z_plus in Hf. change (inject_Z 1) with 1%Q in Hf. lra.
Qed.

Lemma Qround2_hundredths (q : Q) :
  exists n : Z, (Qround2 q == inject_Z n / 100)%Q.
Proof.
  unfold Qround2. destruct (Qltb q 0).
  - exists (- Qfloor (- q * 100 + 0.5))%Z. rewrite inject_Z_opp. field.
  - eexists. reflexivity.
Qed.

Lemma Qround2_fixed (n : Z) (q : Q) :
  (q == inject_Z n / 100)%Q -> (Qround2 q == q)%Q.
Proof.
  intros Hq. unfold Qround2. destruct (Qltb q 0).
  - assert (E : (- q * 100 + 0.5 == inject_Z (- n) + 0.5)%Q)
      by (rewrite Hq, inject_Z_opp; field).
    rewrite E.
    assert (Hf : Qfloor (inject_Z (- n) + 0.5) = (- n)%Z).
    { apply Z.le_antisymm.
      - apply Z.lt_succ_r. rewrite Zlt_Qlt.
        eapply Qle_lt_trans; [apply Qfloor_le|].
        unfold Z.succ. rewrite inject_Z_plus.
        change (inject_Z 1) with 1%Q. lra.
      - rewrite <- (Qfloor_Z (- n)) at 1. apply Qfloor_resp_le. lra. }
    rewrite Hf, Hq, inject_Z_opp. field.
  - assert (E : (q * 100 + 0.5 == inject_Z n + 0.5)%Q)
      by (rewrite Hq; field).
    rewrite E.
    assert (Hf : Qfloor (inject_Z n + 0.5) = n).
    { apply Z.le_antisymm.
      - apply Z.lt_succ_r. rewrite Zlt_Qlt.
        eapply Qle_lt_trans; [apply Qfloor_le|].
        unfold Z.succ. rewrite inject_Z_plus.
        change (inject_Z 1) with 1%Q. lra.
      - rewrite <- (Qfloor_Z n) at 1. apply Qfloor_resp_le. lra. }
    rewrite Hf, Hq. reflexivity.
Qed.

(** The auto-tuned weight is the base weight times one of the factors
    1, 1.5, 0.5 and 0.7, rounded. *)
Lemma autoTune_factor (type : StrategyType)
  (regime : RegimeService.MarketRegime) (w : Q) :
  exists x m : Q,
    RegimeService.autoTune type regime w = Fin (Qround2 x)
    /\ (x == w * m)%Q /\ (0.5 <= m <= 1.5)%Q.
Proof.
  unfold RegimeService.autoTune.
  destruct type, (RegimeService.r_type regime);
    cbn [RegimeService.is_trend_strategy RegimeService.is_reversion_strategy
         RegimeService.is_trending RegimeService.is_ranging
         RegimeService.is_volatile mul toFixed2];
    try destruct (RegimeService.trendStrength regime >. Fin 70);
    cbn [mul toFixed2];
    match goal with
    | |- exists x m, Fin (Qround2 (w * ?f)) = _ /\ _ =>
        exists (w * f)%Q, f; repeat split; try reflexivity; lra
    | |- exists x m, Fin (Qround2 w) = _ /\ _ =>
        exists w, 1%Q; repeat split; try reflexivity; try lra; ring
    end.
Qed.

Lemma autoTune_unmatched (type : StrategyType)
  (regime : RegimeService.MarketRegime) (w : Q) :
  RegimeService.is_trend_strategy type = false ->
  RegimeService.is_reversion_strategy type = false ->
  RegimeService.autoTune type regime w = Fin (Qround2 w).
Proof.
  intros Ht Hr. unfold RegimeService.autoTune. rewrite Ht, Hr.
  destruct type; try discriminate;
    now destruct (RegimeService.is_volatile (RegimeService.r_type regime)).
Qed.

(** C5 (with the rounding that the unmatched types undergo too).  For a
    non-negative base weight the adjusted weight is a non-negative multiple
    of 1/100; for a strategy type in none of the three rules it is the base
    weight rounded to two decimals, hence the base weight itself whenever
    that is a multiple of 1/100. *)
Theorem autoTune_weight (type : StrategyType)
  (regime : RegimeService.MarketRegime) (w : Q) :
  ((0 <= w)%Q ->
   exists (a : Q) (n : Z),
     RegimeService.autoTune type regime w = Fin a
     /\ (0 <= a)%Q /\ (a == inject_Z n / 100)%Q)
  /\ (RegimeService.is_trend_strategy type = false ->
      RegimeService.is_reversion_strategy type = false ->
      RegimeService.autoTune type regime w = Fin (Qround2 w)
      /\ forall n : Z, (w == inject_Z n / 100)%Q ->
           num_eq (RegimeService.autoTune type regime w) (Fin w)).
Proof.
  split.
  - intros Hw.
    destruct (autoTune_factor type regime w) as (x & m & -> & Hx & Hm).
    destruct (Qround2_hundredths x) as [n Hn].
    exists (Qround2 x), n. split; [reflexivity|]. split; [|exact Hn].
    apply Qround2_nonneg. rewrite Hx. nra.
  - intros Ht Hr. rewrite (autoTune_unmatched type regime w Ht Hr).
    split; [reflexivity|]. intros n Hn. cbn [num_eq].
    now apply (Qround2_fixed n).
Qed.

Lemma autoTune_weight_witness :
  (exists (a : Q) (n : Z),
     RegimeService.autoTune MA_CROSSOVER quietRegime 5 = Fin a
     /\ (0 <= a)%Q /\ (a == inject_Z n / 100)%Q)
  /\ num_eq (RegimeService.autoTune MARTINGALE quietRegime 5) (Fin 5).
Proof.
  split.
  - apply (proj1 (autoTune_weight MA_CROSSOVER quietRegime 5)).
    vm_compute. discriminate.
  - apply (proj2 (autoTune_weight MARTINGALE quietRegime 5)) with (n := 500%Z);
      reflexivity.
Defined.

(** C5 as stated fails for a base weight with more than two decimals: the
    adjusted weight of Martingale at base weight 1.234 is 1.23. *)
Lemma autoTune_weight_counterexample :
  (0 <= 1.234)%Q
  /\ RegimeService.autoTune MARTINGALE quietRegime 1.234 = Fin 1.23
  /\ ~ num_eq (RegimeService.autoTune MARTINGALE quietRegime 1.234)
         (Fin 1.234).
Proof.
  split; [vm_compute; discriminate|]. split; [reflexivity|].
  vm_compute. discriminate.
Qed.

(** ** The composite score *)

Lemma vote_step (qs qw a : Q) (sig : Signal) (no_items : Prop) :
  (- qw <= qs <= qw)%Q -> (0 <= qw)%Q -> (0 < a)%Q ->
  balanced (Fin qs +. numericSignal sig *. Fin a) (Fin qw +. Fin a) no_items.
Proof.
  intros Hs Hw Ha. destruct sig; cbn [numericSignal mul add];
    eexists _, _; (split; [reflexivity|]); (split; [reflexivity|]);
    (split; [lra|]); (split; [lra|]); intros E; exfalso; lra.
Qed.

Lemma score_within (qs qw : Q) :
  (- qw <= qs <= qw)%Q -> (0 < qw)%Q -> (-1 <= qs / qw <= 1)%Q.
Proof.
  intros Hs Hw. split.
  - apply Qle_shift_div_l; [assumption | lra].
  - apply Qle_shift_div_r; [assumption | lra].
Qed.

Lemma autoTune_positive (type : StrategyType)
  (regime : RegimeService.MarketRegime) (w : Q) :
  (1 <= w)%Q ->
  exists a : Q, RegimeService.autoTune type regime w = Fin a /\ (0 < a)%Q.
Proof.
  intros Hw.
  destruct (autoTune_factor type regime w) as (x & m & -> & Hx & Hm).
  exists (Qround2 x). split; [reflexivity|].
  assert (Hx' : (0.5 <= x)%Q) by (rewrite Hx; nra).
  pose proof (Qround2_close x ltac:(lra)). lra.
Qed.

Section CompositeScore.
Context `{MathLib}.

Lemma weighted_fold_balanced (candles : list MarketCandle)
  (activePositions : list Trade)
  (allMarketData : gmap string (list MarketCandle))
  (params : StrategyParameters) (l : list StrategyConfigItem) :
  (forall s, In s l -> (1 <= weight s)%Q) ->
  forall init : StrategyService.Totals,
    balanced (StrategyService.totalScore init)
      (StrategyService.totalWeight init) (StrategyService.items init = []) ->
    let t :=
      fold_left
        (StrategyService.tally candles activePositions allMarketData params)
        l init in
    balanced (StrategyService.totalScore t) (StrategyService.totalWeight t)
      (StrategyService.items t = []).
Proof.
  induction l as [|x l IH]; intros Hw init Hinit; [exact Hinit|].
  cbn [fold_left]. apply IH; [intros; apply Hw; now right|].
  destruct Hinit as (qs & qw & Es & Ew & Hs & Hq & _).
  cbn [StrategyService.tally StrategyService.totalScore
       StrategyService.totalWeight StrategyService.items].
  rewrite Es, Ew. apply vote_step; try assumption.
  specialize (Hw x (or_introl eq_refl)). lra.
Qed.

Lemma regime_fold_balanced (regime : RegimeService.MarketRegime)
  (candles : list MarketCandle) (activePositions : list Trade)
  (allMarketData : gmap string (list MarketCandle))
  (params : StrategyParameters) (l : list StrategyConfigItem) :
  (forall s, In s l -> (1 <= weight s)%Q) ->
  forall init : RegimeService.Totals,
    balanced (RegimeService.totalScore init)
      (RegimeService.totalWeight init) (RegimeService.items init = []) ->
    let t :=
      fold_left
        (RegimeService.tally regime candles activePositions allMarketData
           params) l init in
    balanced (RegimeService.totalScore t) (RegimeService.totalWeight t)
      (RegimeService.items t = []).
Proof.
  induction l as [|x l IH]; intros Hw init Hinit; [exact Hinit|].
  cbn [fold_left]. apply IH; [intros; apply Hw; now right|].
  destruct Hinit as (qs & qw & Es & Ew & Hs & Hq & _).
  cbn [RegimeService.tally RegimeService.totalScore
       RegimeService.totalWeight RegimeService.items].
  rewrite Es, Ew.
  destruct (autoTune_positive (sc_type x) regime (weight x)
              (Hw x (or_introl eq_refl))) as (a & -> & Ha).
  now apply vote_step.
Qed.

Lemma balanced_start (no_items : Prop) :
  no_items -> balanced (Fin 0) (Fin 0) no_items.
Proof.
  intros Hn. exists 0%Q, 0%Q. repeat split; try lra. intros _. exact Hn.
Qed.

Lemma weighted_accumulate_balanced (strategies : list StrategyConfigItem)
  (candles : list MarketCandle) (activePositions : list Trade)
  (allMarketData : gmap string (list MarketCandle))
  (params : StrategyParameters) :
  (forall s, In s strategies -> (1 <= weight s <= 10)%Q) ->
  let t :=
    StrategyService.accumulate strategies candles activePositions
      allMarketData params in
  balanced (StrategyService.totalScore t) (StrategyService.totalWeight t)
    (StrategyService.items t = []).
Proof.
  intros Hw. unfold StrategyService.accumulate.
  apply weighted_fold_balanced.
  - intros s Hs. apply filter_In in Hs. apply Hw, Hs.
  - now apply balanced_start.
Qed.

Lemma regime_accumulate_balanced (strategies : list StrategyConfigItem)
  (candles : list MarketCandle) (activePositions : list Trade)
  (allMarketData : gmap string (list MarketCandle))
  (params : StrategyParameters) :
  (forall s, In s strategies -> (1 <= weight s <= 10)%Q) ->
  let t :=
    RegimeService.accumulate (RegimeService.analyzeMarketRegime candles)
      strategies candles activePositions allMarketData params in
  balanced (RegimeService.totalScore t) (RegimeService.totalWeight t)
    (RegimeService.items t = []).
Proof.
  intros Hw. unfold RegimeService.accumulate.
  apply regime_fold_balanced.
  - intros s Hs. apply filter_In in Hs. apply Hw, Hs.
  - now apply balanced_start.
Qed.

(** C3.  With every configured weight in [[1, 10]], the score of the
    weighted composite and the score of the regime-aware composite lie in
    [[-1, 1]]; and when the accumulated total weight is 0, as it is when no
    strategy is enabled, the score is 0, the signal NEUTRAL and the
    breakdown, respectively the insight list, empty. *)
Theorem composite_score_bounds (strategies : list StrategyConfigItem)
  (candles : list MarketCandle) (activePositions : list Trade)
  (allMarketData : gmap string (list MarketCandle))
  (params : StrategyParameters) :
  (forall s, In s strategies -> (1 <= weight s <= 10)%Q) ->
  let weighted :=
    StrategyService.getCompositeStrategySignal strategies candles
      activePositions allMarketData params in
  let weighted_total :=
    StrategyService.totalWeight
      (StrategyService.accumulate strategies candles activePositions
         allMarketData params) in
  let aware :=
    RegimeService.getCompositeStrategySignal strategies candles
      activePositions allMarketData params in
  let aware_total :=
    RegimeService.totalWeight
      (RegimeService.accumulate (RegimeService.analyzeMarketRegime candles)
         strategies candles activePositions allMarketData params) in
  within (-1) 1 (StrategyService.score weighted)
  /\ within (-1) 1 (RegimeService.score aware)
  /\ (num_eq weighted_total (Fin 0) ->
      StrategyService.score weighted = Fin 0
      /\ StrategyService.signal weighted = NEUTRAL
      /\ StrategyService.breakdown weighted = [])
  /\ (num_eq aware_total (Fin 0) ->
      RegimeService.score aware = Fin 0
      /\ RegimeService.signal aware = NEUTRAL
      /\ RegimeService.insights aware = [])
  /\ (List.filter enabled strategies = [] ->
      weighted_total = Fin 0 /\ aware_total = Fin 0).
Proof.
  intros Hw. cbv zeta.
  pose proof (weighted_accumulate_balanced strategies candles activePositions
                allMarketData params Hw) as H0.
  pose proof (regime_accumulate_balanced strategies candles activePositions
                allMarketData params Hw) as H1.
  cbv zeta in H0, H1.
  unfold StrategyService.getCompositeStrategySignal,
    RegimeService.getCompositeStrategySignal.
  destruct H0 as (qs0 & qw0 & Es0 & Ew0 & Hs0 & Hq0 & He0).
  destruct H1 as (qs1 & qw1 & Es1 & Ew1 & Hs1 & Hq1 & He1).
  rewrite Es0, Ew0, Es1, Ew1. cbn [seq_num gt lt num_eq].
  assert (Hpos0 : Qeq_bool qw0 0 = false -> (0 < qw0)%Q).
  { intros E. apply Qeq_bool_false in E. apply Qle_lteq in Hq0.
    destruct Hq0 as [|Hq0]; [assumption|]. symmetry in Hq0. contradiction. }
  repeat split.
  - destruct (Qeq_bool qw0 0) eqn:E;
      cbn [StrategyService.score].
    + exists 0%Q. split; [reflexivity | lra].
    + exists (qs0 / qw0)%Q. split.
      * unfold div. now rewrite E.
      * apply score_within; auto.
  - destruct (Qltb 0 qw1) eqn:E; cbn [RegimeService.score].
    + apply Qltb_lt in E. exists (qs1 / qw1)%Q. split.
      * unfold div. assert (E' : Qeq_bool qw1 0 = false)
          by (apply Qeq_bool_false; lra). now rewrite E'.
      * now apply score_within.
    + exists 0%Q. split; [reflexivity | lra].
  - apply Qeq_bool_iff in H0. now rewrite H0.
  - apply Qeq_bool_iff in H0. now rewrite H0.
  - apply Qeq_bool_iff in H0. rewrite H0. cbn [StrategyService.breakdown].
    apply He0. now apply Qeq_bool_iff.
  - assert (E : Qltb 0 qw1 = false) by (apply Qltb_ge; lra). now rewrite E.
  - assert (E : Qltb 0 qw1 = false) by (apply Qltb_ge; lra). now rewrite E.
  - cbn [RegimeService.insights]. now apply He1.
  - unfold StrategyService.accumulate in Ew0. rewrite H0 in Ew0.
    cbn in Ew0. now rewrite <- Ew0.
  - unfold RegimeService.accumulate in Ew1. rewrite H0 in Ew1.
    cbn in Ew1. now rewrite <- Ew1.
Qed.

End CompositeScore.

Lemma composite_score_bounds_witness :
  within (-1) 1
    (RegimeService.score
       (RegimeService.getCompositeStrategySignal (H := approxMath)
          [{| sc_type := RSI_REVERSION; enabled := true; weight := 5 |};
           {| sc_type := MARTINGALE; enabled := true; weight := 3 |}]
          falling [] ∅ defaultParams)).
Proof.
  apply (composite_score_bounds (H := approxMath)
           [{| sc_type := RSI_REVERSION; enabled := true; weight := 5 |};
            {| sc_type := MARTINGALE; enabled := true; weight := 3 |}]
           falling [] ∅ defaultParams).
  intros s [<- | [<- | []]]; split; vm_compute; discriminate.
Defined.

(** ** The market regime *)

Lemma fold_add_finite (qs : list Q) :
  forall a : Q, exists q : Q, fold_left add (map Fin qs) (Fin a) = Fin q.
Proof.
  induction qs as [|x qs IH]; intros a; cbn [map fold_left add]; eauto.
Qed.

Lemma slice_from_map {A B} (f : A -> B) (start : Z) (l : list A) :
  slice_from start (map f l) = map f (slice_from start l).
Proof.
  unfold slice_from, len. rewrite length_map. apply skipn_map.
Qed.

Lemma closes_of_map (candles : list MarketCandle) :
  closes_of candles = map Fin (map close candles).
Proof. unfold closes_of. now rewrite map_map. Qed.

Lemma calculateSMA_finite (candles : list MarketCandle) (period : Z) :
  period <> 0%Z ->
  exists q : Q, calculateSMA (closes_of candles) period = Fin q.
Proof.
  intros Hp. unfold calculateSMA.
  destruct (len (closes_of candles) <? period)%Z; [eauto|].
  rewrite closes_of_map, slice_from_map. unfold sum.
  destruct (fold_add_finite (slice_from (- period) (map close candles)) 0)
    as [q ->].
  unfold ofZ, div.
  assert (E : Qeq_bool (inject_Z period) 0 = false).
  { apply Qeq_bool_false. unfold Qeq. simpl. lia. }
  rewrite E. eauto.
Qed.

Lemma gt_false_le (a b : Q) : (Fin a >. Fin b) = false <-> (Fin a <=. Fin b) = true.
Proof.
  cbn [gt lt le]. unfold Qltb. now rewrite negb_false_iff.
Qed.

Section Regime.
Context `{MathLib}.

(** C4.  [analyzeMarketRegime] is a function of the candles.  Under 30
    candles it answers RANGING with both scores 0 and the description
    "Insufficient Data".  From 30 candles on it reports the volatility and
    trend scores and the type is VOLATILE exactly when the volatility score
    exceeds 60; otherwise, exactly when the trend score exceeds 20, it is
    TRENDING_UP if SMA(7) > SMA(25) and TRENDING_DOWN if SMA(7) <= SMA(25);
    and RANGING in the remaining case. *)
Theorem analyzeMarketRegime_classification (candles : list MarketCandle) :
  let r := RegimeService.analyzeMarketRegime candles in
  let closes := closes_of candles in
  let volatile := RegimeService.volatility r >. Fin 60 in
  let trending := RegimeService.trendStrength r >. Fin 20 in
  let shortMa := calculateSMA closes 7 in
  let longMa := calculateSMA closes 25 in
  ((len candles < 30)%Z ->
   r = {| RegimeService.r_type := RegimeService.RANGING;
          RegimeService.volatility := Fin 0;
          RegimeService.trendStrength := Fin 0;
          RegimeService.description := "Insufficient Data" |})
  /\ ((30 <= len candles)%Z ->
      RegimeService.volatility r = RegimeService.volatility_score closes
      /\ RegimeService.trendStrength r = RegimeService.trend_score closes
      /\ (RegimeService.r_type r = RegimeService.VOLATILE
          <-> volatile = true)
      /\ (RegimeService.r_type r = RegimeService.TRENDING_UP
          <-> volatile = false /\ trending = true
              /\ (shortMa >. longMa) = true)
      /\ (RegimeService.r_type r = RegimeService.TRENDING_DOWN
          <-> volatile = false /\ trending = true
              /\ (shortMa <=. longMa) = true)
      /\ (RegimeService.r_type r = RegimeService.RANGING
          <-> volatile = false /\ trending = false)).
Proof.
  cbv zeta. unfold RegimeService.analyzeMarketRegime. split.
  - intros Hlen.
    destruct (len candles <? 30)%Z eqn:E; [reflexivity | lia].
  - intros Hlen.
    destruct (len candles <? 30)%Z eqn:E; [lia|].
    destruct (calculateSMA_finite candles 7 ltac:(lia)) as [s Es].
    destruct (calculateSMA_finite candles 25 ltac:(lia)) as [l El].
    pose proof (gt_false_le s l) as Hgt.
    rewrite Es, El.
    destruct (RegimeService.volatility_score (closes_of candles) >. Fin 60)
      eqn:Ev;
      [|destruct (RegimeService.trend_score (closes_of candles) >. Fin 20)
          eqn:Et; [destruct (Fin s >. Fin l) eqn:Es'|]];
      cbn [RegimeService.r_type RegimeService.volatility
           RegimeService.trendStrength];
      rewrite ?Ev, ?Et;
      (split; [reflexivity|]); (split; [reflexivity|]).
    all: repeat split; intros; try congruence.
    all: repeat match goal with Hc : _ /\ _ |- _ => destruct Hc end;
      try congruence.
    all: try (apply Hgt; congruence).
    all: match goal with
         | Hc : (_ <=. _) = true |- _ => apply Hgt in Hc; congruence
         end.
Qed.

End Regime.

Lemma analyzeMarketRegime_classification_witness :
  RegimeService.analyzeMarketRegime (H := approxMath) falling = quietRegime
  /\ RegimeService.r_type
       (RegimeService.analyzeMarketRegime (H := approxMath) flat30)
     = RegimeService.RANGING.
Proof.
  split.
  - apply (proj1 (analyzeMarketRegime_classification (H := approxMath)
                    falling)).
    vm_compute. reflexivity.
  - destruct (analyzeMarketRegime_classification (H := approxMath) flat30)
      as [_ Hlong].
    destruct (Hlong ltac:(vm_compute; discriminate))
      as (_ & _ & _ & _ & _ & Hranging).
    apply Hranging. split; vm_compute; reflexivity.
Defined.

(** ** Martingale *)

Lemma lot_totals_fold (lots : list Trade) :
  forall vol cost : number,
    fold_left
      (fun '(totalVol, totalCost) p =>
         (totalVol +. Fin (amount p),
          totalCost +. (Fin (amount p) *. Fin (price p))))
      lots (vol, cost)
    = (fold_left add (map (fun p => Fin (amount p)) lots) vol,
       fold_left add
         (map (fun p => Fin (amount p) *. Fin (price p)) lots) cost).
Proof.
  induction lots as [|p lots IH]; intros vol cost; cbn [fold_left map];
    [reflexivity | apply IH].
Qed.

Lemma lot_totals_sums (lots : list Trade) :
  StrategyService.lot_totals lots
  = (sum (map (fun p => Fin (amount p)) lots),
     sum (map (fun p => Fin (amount p) *. Fin (price p)) lots)).
Proof. unfold StrategyService.lot_totals, sum. apply lot_totals_fold. Qed.

Section Martingale.
Context `{MathLib}.

(** C7.  The Martingale case keeps the open positions on the asset of the
    candles.  With none left it answers BUY exactly when the RSI is below
    [rsiOversold + 10], else NEUTRAL.  Otherwise it answers BUY when the
    change from the entry price of the most recent of them is below
    [-martingalePriceDrop] percent; failing that, SELL when the change from
    the volume-weighted average entry price of all of them is above
    [martingaleProfitTarget] percent; and NEUTRAL failing both. *)
Theorem martingale_signal (candles : list MarketCandle)
  (activePositions : list Trade)
  (allMarketData : gmap string (list MarketCandle))
  (params : StrategyParameters) :
  let lots := open_lots candles activePositions in
  let now := current_price candles in
  let signal :=
    StrategyService.getStrategySignal MARTINGALE candles activePositions
      allMarketData params in
  (lots = [] ->
   signal
   = if calculateRSI candles (rsiPeriod params)
        <. Fin (rsiOversold params + 10)
     then BUY else NEUTRAL)
  /\ (forall recent : Trade, last lots = Some recent ->
      signal
      = if relative_change (Fin (price recent)) now
           <. Fin (- (martingalePriceDrop params / 100))
        then BUY
        else if relative_change (average_entry lots) now
                >. Fin (martingaleProfitTarget params / 100)
        then SELL
        else NEUTRAL).
Proof.
  cbv zeta. cbn [StrategyService.getStrategySignal].
  unfold StrategyService.case_MARTINGALE.
  fold (open_lots candles activePositions).
  rewrite len_closes_of. fold (current_price candles).
  split.
  - intros ->. reflexivity.
  - intros recent ->. rewrite lot_totals_sums.
    fold (average_entry (open_lots candles activePositions)).
    reflexivity.
Qed.

End Martingale.

Lemma martingale_signal_witness :
  StrategyService.getStrategySignal (H := approxMath) MARTINGALE dip [] ∅
    dipParams = BUY
  /\ StrategyService.getStrategySignal (H := approxMath) MARTINGALE dip
       [lot "ETH" 10 1] ∅ dipParams = BUY
  /\ StrategyService.getStrategySignal (H := approxMath) MARTINGALE dip
       [lot "ETH" 6 1; lot "BTC" 9 1; lot "ETH" 8 1] ∅ dipParams = SELL.
Proof.
  split; [|split].
  - rewrite (proj1 (martingale_signal (H := approxMath) dip [] ∅ dipParams)
               eq_refl).
    reflexivity.
  - rewrite (proj2 (martingale_signal (H := approxMath) dip
                      [lot "ETH" 10 1] ∅ dipParams)
               (lot "ETH" 10 1) eq_refl).
    reflexivity.
  - rewrite (proj2 (martingale_signal (H := approxMath) dip
                      [lot "ETH" 6 1; lot "BTC" 9 1; lot "ETH" 8 1] ∅
                      dipParams)
               (lot "ETH" 8 1) eq_refl).
    reflexivity.
Defined.

(** ** Correlation arbitrage *)

Lemma range_length (start stop : Z) :
  len (range start stop) = Z.max 0 (stop - start).
Proof. unfold len, range. rewrite length_map, length_seq. lia. Qed.

Lemma get_outside (arr : list number) (i : Z) :
  (i < 0)%Z -> get arr i = NaN.
Proof. intros Hi. unfold get. destruct (i <? 0)%Z eqn:E; [reflexivity | lia]. Qed.

Lemma get_closes_positive (candles : list MarketCandle) (i : Z) :
  (forall c, In c candles -> (0 < close c)%Q) ->
  (0 <= i < len candles)%Z ->
  exists q : Q, get (closes_of candles) i = Fin q /\ (0 < q)%Q.
Proof.
  intros Hpos Hi. exists (closeQ candles i). split.
  - now apply close_at_inside.
  - destruct (closeQ_In candles i Hi) as (x & Hx & ->). now apply Hpos.
Qed.

Lemma slice_from_length {A} (n : Z) (l : list A) :
  (0 < n)%Z -> len (slice_from (- n) l) = Z.min n (len l).
Proof.
  intros Hn. unfold slice_from, len.
  destruct (- n <? 0)%Z eqn:E; [|lia].
  rewrite length_skipn. lia.
Qed.

Lemma threshold_exclusive (a : Q) (v x : number) :
  (0 < a)%Q ->
  (x >. Math_max (Fin a) v) = true ->
  (x <. neg (Math_max (Fin a) v)) = true -> False.
Proof.
  intros Ha. destruct v as [b| | |]; cbn [Math_max le].
  - destruct (Qle_bool a b) eqn:E.
    + apply Qle_bool_iff in E.
      destruct x as [q| | |]; cbn [gt lt neg]; try discriminate.
      rewrite !Qltb_lt. lra.
    + destruct x as [q| | |]; cbn [gt lt neg]; try discriminate.
      rewrite !Qltb_lt. lra.
  - destruct x; cbn; discriminate.
  - destruct x as [q| | |]; cbn [gt lt neg]; try discriminate.
    rewrite !Qltb_lt. lra.
  - destruct x; cbn; discriminate.
Qed.

Lemma lt_NaN_r (x : number) : (x <. NaN) = false.
Proof. now destruct x. Qed.

Lemma relative_change_NaN (now : number) : relative_change NaN now = NaN.
Proof. unfold relative_change. now destruct now. Qed.

Lemma falsy_positive (q : Q) : (0 < q)%Q -> falsy (Fin q) = false.
Proof. intros Hq. cbn. apply Qeq_bool_false. lra. Qed.

Lemma bar_return_short (candles : list MarketCandle) :
  (len candles < 6)%Z -> bar_return (closes_of candles) 5 = NaN.
Proof.
  intros Hlen. unfold bar_return. rewrite len_closes_of.
  rewrite (get_outside _ (len candles - 1 - 5)) by lia.
  apply relative_change_NaN.
Qed.

Section Arbitrage.
Context `{MathLib}.

Lemma arbitrage_normal (candles : list MarketCandle)
  (allMarketData : gmap string (list MarketCandle))
  (btcData : list MarketCandle) :
  (forall c, In c candles -> (0 < close c)%Q) ->
  (forall c, In c btcData -> (0 < close c)%Q) ->
  symbol_of candles <> Some EmptyString ->
  allMarketData !! BTC = Some btcData ->
  (30 <= len btcData)%Z ->
  symbol_of candles <> Some BTC ->
  liquidity_low candles = false ->
  StrategyService.case_ARBITRAGE candles allMarketData
  = let reference := closes_of btcData in
    let own := closes_of candles in
    let threshold := arbitrage_threshold reference in
    let referenceReturn := bar_return reference 5 in
    let ownReturn := bar_return own 5 in
    if (referenceReturn >. threshold)
       && (ownReturn <. referenceReturn *. Fin 0.5)
    then BUY
    else if (referenceReturn <. neg threshold)
            && (ownReturn >. referenceReturn *. Fin 0.5)
    then SELL
    else NEUTRAL.
Proof.
  intros Hpos Hbtc Hsym Hlook Hlen Hnot Hliq.
  unfold StrategyService.case_ARBITRAGE. rewrite Hlook.
  destruct (len btcData <? 30)%Z eqn:E30; [lia|]. cbn [orb]. cbv zeta.
  destruct candles as [|c0 cs].
  - cbn [symbol_of head option_map no_symbol].
    rewrite (bar_return_short []) by (unfold len; simpl; lia).
    unfold gt at 2. rewrite lt_NaN_r.
    cbn [lt]. now rewrite !andb_false_r.
  - match goal with
    | |- (if _ then _ else if _ then _ else if _ then _ else if _ then _
          else if _ then _ else if _ then _ else ?F) = ?R =>
        change F with R; set (answer := R)
    end.
    assert (E1 : no_symbol (symbol_of (c0 :: cs)) = false).
    { cbn [symbol_of head option_map] in Hsym.
      cbn [symbol_of head option_map no_symbol].
      apply String.eqb_neq. congruence. }
    assert (E2 : symbol_is (symbol_of (c0 :: cs)) BTC = false).
    { cbn [symbol_of head option_map] in Hnot.
      cbn [symbol_of head option_map symbol_is].
      apply String.eqb_neq. congruence. }
    rewrite E1, E2. change (- (20))%Z with (-20)%Z.
    assert (E3 : forall f : Z -> number,
               (len (map f (range (Z.max 1 (len (closes_of btcData) - 20))
                              (len (closes_of btcData)))) =? 0)%Z = false).
    { intros f. unfold len at 1. rewrite length_map. fold (len (range (Z.max 1 (len (closes_of btcData) - 20))
                              (len (closes_of btcData)))). rewrite range_length, len_closes_of. lia. }
    rewrite E3.
    assert (E4 : (len (map (fun c : MarketCandle => Fin (volume c))
                         (slice_from (-20) (c0 :: cs))) =? 0)%Z = false).
    { unfold len at 1. rewrite length_map.
      fold (len (slice_from (-20) (c0 :: cs))).
      rewrite (slice_from_length 20) by lia. unfold len. cbn [length].
      apply Z.eqb_neq. lia. }
    rewrite E4.
    unfold liquidity_low in Hliq. cbv zeta in Hliq. rewrite Hliq.
    rewrite !len_closes_of.
    destruct (get_closes_positive btcData (len btcData - 1 - 5) Hbtc
                ltac:(lia)) as (pb & -> & Hpb).
    rewrite (falsy_positive pb Hpb). cbn [orb].
    destruct (Z_lt_le_dec (len (c0 :: cs)) 6) as [Hshort | Hlong].
    + rewrite (get_outside (closes_of (c0 :: cs))) by lia.
      cbn [falsy]. subst answer. cbv zeta.
      rewrite (bar_return_short (c0 :: cs)) by lia.
      unfold gt at 2. rewrite lt_NaN_r.
      cbn [lt]. now rewrite !andb_false_r.
    + destruct (get_closes_positive (c0 :: cs) (len (c0 :: cs) - 1 - 5) Hpos
                  ltac:(lia)) as (pa & -> & Hpa).
      now rewrite (falsy_positive pa Hpa).
Qed.
End Arbitrage.


Section ArbitrageSignal.
Context `{MathLib}.

Lemma arbitrage_precondition (candles : list MarketCandle)
  (allMarketData : gmap string (list MarketCandle))
  (btcData : list MarketCandle) :
  allMarketData !! BTC = Some btcData ->
  (len btcData < 30)%Z \/ symbol_of candles = Some BTC
  \/ liquidity_low candles = true ->
  StrategyService.case_ARBITRAGE candles allMarketData = NEUTRAL.
Proof.
  intros Hlook Hfail. unfold StrategyService.case_ARBITRAGE. rewrite Hlook.
  cbv zeta. change (- (20))%Z with (-20)%Z.
  destruct Hfail as [Hlen | [Hsym | Hliq]].
  - destruct (len btcData <? 30)%Z eqn:E; [reflexivity | lia].
  - rewrite Hsym.
    destruct ((len btcData <? 30)%Z || no_symbol (Some BTC));
      [reflexivity|].
    cbn [symbol_is]. now rewrite String.eqb_refl.
  - unfold liquidity_low in Hliq. cbv zeta in Hliq. rewrite Hliq.
    repeat match goal with
           | |- (if ?c then _ else _) = _ => destruct c; try reflexivity
           end.
Qed.

(** C8.  On well-formed data (positive closes, a non-empty asset symbol)
    the Correlation Arbitrage case answers NEUTRAL when the reference
    history is absent or shorter than 30 candles, when the asset is the
    reference asset, or when the most recent volume is below 40% of the
    trailing 20-bar average.  Otherwise it answers BUY exactly when the
    reference 5-bar return exceeds the threshold and the asset's 5-bar
    return is below half of it, SELL exactly in the mirrored case, and
    NEUTRAL in every other case. *)
Theorem arbitrage_signal (candles : list MarketCandle)
  (activePositions : list Trade)
  (allMarketData : gmap string (list MarketCandle))
  (params : StrategyParameters) :
  (forall c, In c candles -> (0 < close c)%Q) ->
  (forall btcData c,
     allMarketData !! BTC = Some btcData -> In c btcData ->
     (0 < close c)%Q) ->
  symbol_of candles <> Some EmptyString ->
  let signal :=
    StrategyService.getStrategySignal ARBITRAGE candles activePositions
      allMarketData params in
  (allMarketData !! BTC = None -> signal = NEUTRAL)
  /\ (forall btcData, allMarketData !! BTC = Some btcData ->
      let reference := closes_of btcData in
      let threshold := arbitrage_threshold reference in
      let referenceReturn := bar_return reference 5 in
      let ownReturn := bar_return (closes_of candles) 5 in
      let up :=
        (referenceReturn >. threshold)
        && (ownReturn <. referenceReturn *. Fin 0.5) in
      let down :=
        (referenceReturn <. neg threshold)
        && (ownReturn >. referenceReturn *. Fin 0.5) in
      ((len btcData < 30)%Z \/ symbol_of candles = Some BTC
       \/ liquidity_low candles = true -> signal = NEUTRAL)
      /\ ((30 <= len btcData)%Z -> symbol_of candles <> Some BTC ->
          liquidity_low candles = false ->
          (signal = BUY <-> up = true)
          /\ (signal = SELL <-> down = true)
          /\ (signal = NEUTRAL <-> up = false /\ down = false))).
Proof.
  intros Hpos Hbtc Hsym. cbv zeta. cbn [StrategyService.getStrategySignal].
  split.
  - intros Hnone. unfold StrategyService.case_ARBITRAGE. now rewrite Hnone.
  - intros btcData Hlook. split.
    + now apply arbitrage_precondition.
    + intros Hlen Hnot Hliq.
      rewrite (arbitrage_normal candles allMarketData btcData Hpos
                 (fun c => Hbtc btcData c Hlook) Hsym Hlook Hlen Hnot Hliq).
      cbv zeta.
      destruct ((bar_return (closes_of btcData) 5
                 >. arbitrage_threshold (closes_of btcData))
                && (bar_return (closes_of candles) 5
                    <. bar_return (closes_of btcData) 5 *. Fin 0.5)) eqn:Eu;
        destruct ((bar_return (closes_of btcData) 5
                   <. neg (arbitrage_threshold (closes_of btcData)))
                  && (bar_return (closes_of candles) 5
                      >. bar_return (closes_of btcData) 5 *. Fin 0.5)) eqn:Ed;
        try (repeat split; intros; try congruence;
             repeat match goal with Hc : _ /\ _ |- _ => destruct Hc end;
             congruence).
      exfalso. apply andb_true_iff in Eu, Ed.
      destruct Eu as [Eu _], Ed as [Ed _].
      unfold arbitrage_threshold in Eu, Ed.
      eapply threshold_exclusive; [|exact Eu | exact Ed]. reflexivity.
Qed.

End ArbitrageSignal.

Lemma leaderUp_positive (c : MarketCandle) :
  In c leaderUp -> (0 < close c)%Q.
Proof.
  intros Hc. apply in_app_or in Hc.
  destruct Hc as [Hc | [<- | []]];
    [apply repeat_spec in Hc; subst c|]; reflexivity.
Qed.

Lemma leaderMarket_lookup (btcData : list MarketCandle) :
  leaderMarket !! BTC = Some btcData -> btcData = leaderUp.
Proof.
  unfold leaderMarket. rewrite lookup_singleton_eq. congruence.
Qed.

Lemma arbitrage_signal_witness :
  StrategyService.getStrategySignal (H := approxMath) ARBITRAGE flat30 []
    leaderMarket defaultParams = BUY
  /\ StrategyService.getStrategySignal (H := approxMath) ARBITRAGE leaderUp
       [] leaderMarket defaultParams = NEUTRAL
  /\ StrategyService.getStrategySignal (H := approxMath) ARBITRAGE flat30 []
       ∅ defaultParams = NEUTRAL.
Proof.
  split; [|split].
  - destruct (arbitrage_signal (H := approxMath) flat30 [] leaderMarket
                defaultParams) as [_ Hsome].
    + intros c Hc. apply repeat_spec in Hc. subst c. reflexivity.
    + intros btcData c Hlook Hc. apply leaderMarket_lookup in Hlook.
      subst btcData. now apply leaderUp_positive.
    + discriminate.
    + destruct (Hsome leaderUp eq_refl) as [_ Hmain].
      destruct Hmain as (Hbuy & _ & _);
        [vm_compute; discriminate | discriminate | vm_compute; reflexivity |].
      apply Hbuy. vm_compute. reflexivity.
  - destruct (arbitrage_signal (H := approxMath) leaderUp [] leaderMarket
                defaultParams) as [_ Hsome].
    + apply leaderUp_positive.
    + intros btcData c Hlook Hc. apply leaderMarket_lookup in Hlook.
      subst btcData. now apply leaderUp_positive.
    + discriminate.
    + apply (proj1 (Hsome leaderUp eq_refl)). right. left. reflexivity.
  - destruct (arbitrage_signal (H := approxMath) flat30 [] ∅ defaultParams)
      as [Hnone _].
    + intros c Hc. apply repeat_spec in Hc. subst c. reflexivity.
    + intros btcData c Hlook. rewrite lookup_empty in Hlook. discriminate.
    + discriminate.
    + apply Hnone. apply lookup_empty.
Defined.

(** ** Sums of finite numbers *)

Lemma fold_add_Fin (qs : list Q) :
  forall a : Q, fold_left add (map Fin qs) (Fin a) = Fin (fold_left Qplus qs a).
Proof.
  induction qs as [|q qs IH]; intros a; cbn [map fold_left add];
    [reflexivity | apply IH].
Qed.

Lemma sum_Fin (qs : list Q) : sum (map Fin qs) = Fin (Qsum qs).
Proof. apply fold_add_Fin. Qed.

Lemma fold_Qplus_acc (qs : list Q) :
  forall a : Q, (fold_left Qplus qs a == a + Qsum qs)%Q.
Proof.
  unfold Qsum. induction qs as [|q qs IH]; intros a; cbn [fold_left].
  - ring.
  - rewrite IH, (IH (0 + q)%Q). ring.
Qed.

Lemma Qsum_cons (q : Q) (qs : list Q) : (Qsum (q :: qs) == q + Qsum qs)%Q.
Proof. unfold Qsum at 1. cbn [fold_left]. rewrite fold_Qplus_acc. ring. Qed.

Lemma Qsum_constant (c : Q) (qs : list Q) :
  (forall q, In q qs -> (q == c)%Q) ->
  (Qsum qs == inject_Z (len qs) * c)%Q.
Proof.
  induction qs as [|q qs IH]; intros Hc.
  - unfold len. cbn. ring.
  - assert (Hq : (q == c)%Q) by (apply Hc; now left).
    rewrite Qsum_cons, IH by (intros; apply Hc; now right).
    unfold len. cbn [length]. rewrite Nat2Z.inj_succ. unfold Z.succ.
    rewrite inject_Z_plus, Hq. ring.
Qed.

Lemma In_skipn {A} (n : nat) (l : list A) (x : A) :
  In x (skipn n l) -> In x l.
Proof.
  revert l. induction n as [|n IH]; intros [|y l] Hx; cbn in Hx; auto.
  right. now apply IH.
Qed.

Lemma In_slice_from {A} (start : Z) (l : list A) (x : A) :
  In x (slice_from start l) -> In x l.
Proof. apply In_skipn. Qed.

Lemma inject_Z_nonzero (z : Z) : z <> 0%Z -> Qeq_bool (inject_Z z) 0 = false.
Proof. intros Hz. apply Qeq_bool_false. unfold Qeq. simpl. lia. Qed.

(** ** The simple moving average *)

Lemma calculateSMA_value (qs : list Q) (period : Z) :
  (1 <= period <= len qs)%Z ->
  calculateSMA (map Fin qs) period
  = Fin (Qsum (slice_from (- period) qs) / inject_Z period).
Proof.
  intros Hp. unfold calculateSMA.
  assert (Hl : len (map Fin qs) = len qs) by (unfold len; now rewrite length_map).
  rewrite Hl. destruct (len qs <? period)%Z eqn:E; [lia|].
  rewrite slice_from_map, sum_Fin. unfold ofZ, div.
  now rewrite inject_Z_nonzero by lia.
Qed.

Lemma slice_from_app_window {A} (old w : list A) (period : Z) :
  (1 <= period)%Z -> len w = period ->
  slice_from (- period) (old ++ w) = w.
Proof.
  intros Hp Hw. unfold len in Hw. unfold slice_from, len.
  rewrite length_app.
  destruct (- period <? 0)%Z eqn:E; [|lia].
  replace (Z.to_nat (Z.max (Z.of_nat (length old + length w) + - period) 0))
    with (length old) by lia.
  rewrite skipn_app, skipn_all, Nat.sub_diag. reflexivity.
Qed.

(** X1.  The simple moving average reads only the last [period] values:
    whatever history precedes a window of exactly [period] values, the
    average is that of the window alone. *)
Theorem calculateSMA_window (old w : list number) (period : Z) :
  (1 <= period)%Z -> len w = period ->
  calculateSMA (old ++ w) period = calculateSMA w period.
Proof.
  intros Hp Hw. unfold calculateSMA.
  assert (Hl : len (old ++ w) = (len old + len w)%Z)
    by (unfold len; rewrite length_app; lia).
  pose proof (len_nonneg old).
  rewrite Hl. destruct (len old + len w <? period)%Z eqn:E1; [lia|].
  destruct (len w <? period)%Z eqn:E2; [lia|].
  rewrite slice_from_app_window by assumption.
  change w with ([] ++ w) at 2.
  now rewrite (slice_from_app_window [] w period Hp Hw).
Qed.

Lemma calculateSMA_window_witness :
  calculateSMA ([Fin 100; Fin 1] ++ [Fin 2; Fin 4]) 2
  = calculateSMA [Fin 2; Fin 4] 2.
Proof.
  apply (calculateSMA_window [Fin 100; Fin 1] [Fin 2; Fin 4] 2).
  - lia.
  - reflexivity.
Defined.

(** ** The RSI of a falling market *)

Lemma rsi_fold_no_gain (candles : list MarketCandle) (idxs : list Z) :
  (forall i, In i idxs -> (1 <= i < len candles)%Z) ->
  (forall i, In i idxs ->
     (closeQ candles i < closeQ candles (i - 1))%Q) ->
  forall g l : Q, (0 <= l)%Q ->
  exists l' : Q,
    fold_left (rsi_step candles) idxs (Fin g, Fin l) = (Fin g, Fin l')
    /\ (l <= l')%Q /\ (idxs <> [] -> (0 < l')%Q).
Proof.
  induction idxs as [|i idxs IH]; intros Hin Hdown g l Hl.
  - exists l. split; [reflexivity|]. split; [lra | congruence].
  - cbn [fold_left]. rewrite rsi_step_inside by (apply Hin; now left).
    cbv zeta.
    pose proof (Hdown i (or_introl eq_refl)) as Hd.
    destruct (Qle_bool 0 (closeQ candles i + - closeQ candles (i - 1)))
      eqn:E.
    + apply Qle_bool_iff in E. lra.
    + destruct (IH (fun j Hj => Hin j (or_intror Hj))
                   (fun j Hj => Hdown j (or_intror Hj)) g
                   (l + - (closeQ candles i + - closeQ candles (i - 1)))%Q)
        as (l' & -> & Hle & _); [lra|].
      exists l'. split; [reflexivity|]. split; intros; lra.
Qed.

Section FallingMarket.
Context `{MathLib}.

(** X2.  When every close of the last [period] bars is below the one
    before it, [calculateRSI] is 0 (no gain, some loss), and RSI Reversion
    answers BUY for every positive oversold threshold. *)
Theorem falling_market_rsi (candles : list MarketCandle)
  (activePositions : list Trade)
  (allMarketData : gmap string (list MarketCandle))
  (params : StrategyParameters) :
  (1 <= rsiPeriod params)%Z ->
  (rsiPeriod params + 1 <= len candles)%Z ->
  (forall i : Z,
     (len candles - rsiPeriod params <= i < len candles)%Z ->
     (closeQ candles i < closeQ candles (i - 1))%Q) ->
  num_eq (calculateRSI candles (rsiPeriod params)) (Fin 0)
  /\ ((0 < rsiOversold params)%Q ->
      StrategyService.getStrategySignal RSI_REVERSION candles activePositions
        allMarketData params = BUY).
Proof.
  intros Hp Hlen Hdown.
  assert (Hr : exists r : Q,
             calculateRSI candles (rsiPeriod params) = Fin r /\ (r == 0)%Q).
  { unfold calculateRSI, rsi_sums.
    destruct (len candles <? rsiPeriod params + 1)%Z eqn:E; [lia|].
    destruct (rsi_fold_no_gain candles
                (range (len candles - rsiPeriod params) (len candles))
                (rsi_indices_inside candles _ Hlen)) with (g := 0%Q)
                (l := 0%Q) as (l & -> & _ & Hpos).
    - intros i Hi. apply Hdown. now apply in_range in Hi.
    - lra.
    - assert (Hl : (0 < l)%Q).
      { apply Hpos. intros Hnil.
        assert (Hin : In (len candles - 1)%Z
                        (range (len candles - rsiPeriod params)
                           (len candles))) by (apply in_range; lia).
        rewrite Hnil in Hin. contradiction. }
      assert (El : Qeq_bool l 0 = false) by (apply Qeq_bool_false; lra).
      cbn [seq_num]. rewrite El. unfold div at 2. rewrite El.
      cbn [add]. unfold div.
      assert (Ed : Qeq_bool (1 + 0 / l) 0 = false).
      { apply Qeq_bool_false. intros Ez.
        assert (E0 : (0 / l == 0)%Q) by (field; lra). lra. }
      rewrite Ed. eexists. split; [reflexivity|]. field. lra. }
  destruct Hr as (r & Er & Hr0). split.
  - rewrite Er. exact Hr0.
  - intros Hos. cbn [StrategyService.getStrategySignal].
    unfold StrategyService.case_RSI_REVERSION. rewrite Er. cbn [lt].
    assert (Hlt : Qltb r (rsiOversold params) = true)
      by (apply Qltb_lt; lra).
    now rewrite Hlt.
Qed.

End FallingMarket.

Lemma falling_market_rsi_witness :
  num_eq (calculateRSI falling 14) (Fin 0)
  /\ StrategyService.getStrategySignal (H := approxMath) RSI_REVERSION
       falling [] ∅ defaultParams = BUY.
Proof.
  destruct (falling_market_rsi (H := approxMath) falling [] ∅ defaultParams)
    as [Hrsi Hbuy].
  - vm_compute. discriminate.
  - vm_compute. discriminate.
  - intros i Hi. change (len falling) with 15%Z in Hi.
    change (rsiPeriod defaultParams) with 14%Z in Hi.
    assert (Ei : exists n : nat, i = Z.of_nat n /\ (1 <= n < 15)%nat)
      by (exists (Z.to_nat i); lia).
    destruct Ei as (n & -> & Hn).
    do 15 (destruct n as [|n]; [try lia; vm_compute; reflexivity|]). lia.
  - split; [exact Hrsi | apply Hbuy; reflexivity].
Defined.

(** ** Crossovers with equal periods *)

Lemma lt_irrefl (x : number) : (x <. x) = false.
Proof.
  destruct x as [q| | |]; cbn [lt]; try reflexivity.
  apply Qltb_ge. lra.
Qed.

Section EqualPeriods.
Context `{MathLib}.

(** X4.  When the fast and the slow period coincide the two averages are
    the same series, nothing can cross, and both crossover strategies
    answer NEUTRAL on every input. *)
Theorem crossover_equal_periods (candles : list MarketCandle)
  (activePositions : list Trade)
  (allMarketData : gmap string (list MarketCandle))
  (params : StrategyParameters) :
  fastPeriod params = slowPeriod params ->
  StrategyService.getStrategySignal MA_CROSSOVER candles activePositions
    allMarketData params = NEUTRAL
  /\ StrategyService.getStrategySignal EMA_CROSSOVER candles activePositions
       allMarketData params = NEUTRAL.
Proof.
  intros Heq. cbn [StrategyService.getStrategySignal].
  unfold StrategyService.case_MA_CROSSOVER,
    StrategyService.case_EMA_CROSSOVER.
  rewrite Heq. cbv zeta. unfold gt. rewrite !lt_irrefl, !andb_false_r.
  split.
  - now destruct (len (closes_of candles) <? slowPeriod params + 5)%Z.
  - now destruct (len (closes_of candles) <? slowPeriod params + 1)%Z.
Qed.

End EqualPeriods.

Lemma crossover_equal_periods_witness :
  let params :=
    {| fastPeriod := 3; slowPeriod := 3;
       rsiPeriod := 14; rsiOverbought := 70; rsiOversold := 30;
       bbPeriod := 20; bbStdDev := 2;
       macdFast := 12; macdSlow := 26; macdSignal := 9;
       martingalePriceDrop := 1.5; martingaleProfitTarget := 2.5;
       martingaleVolumeMultiplier := 2 |} in
  StrategyService.getStrategySignal (H := approxMath) EMA_CROSSOVER falling
    [] ∅ params = NEUTRAL.
Proof.
  cbv zeta. eapply proj2.
  apply (crossover_equal_periods (H := approxMath) falling [] ∅). reflexivity.
Defined.

(** ** Bollinger bands *)

Lemma Qsum_nonneg (qs : list Q) :
  (forall q, In q qs -> (0 <= q)%Q) -> (0 <= Qsum qs)%Q.
Proof.
  induction qs as [|q qs IH]; intros Hq.
  - unfold Qsum. cbn. lra.
  - rewrite Qsum_cons.
    specialize (Hq q (or_introl eq_refl)) as H0.
    specialize (IH (fun x Hx => Hq x (or_intror Hx))). lra.
Qed.

Lemma len_map {A B} (f : A -> B) (l : list A) : len (map f l) = len l.
Proof. unfold len. now rewrite length_map. Qed.

(** The squared distances of a window from its mean, and the variance. *)
Lemma squared_diffs_Fin (ws : list Q) (m : Q) :
  map (fun val => Math_pow2 (val -. Fin m)) (map Fin ws)
  = map Fin (map (fun w => ((w + - m) * (w + - m))%Q) ws).
Proof. rewrite !map_map. reflexivity. Qed.

Section Bollinger.
Context `{MathLib}.

Lemma bands_value (candles : list MarketCandle) (period : Z) (mult : Q) :
  (1 <= period <= len candles)%Z ->
  let ws := slice_from (- period) (map close candles) in
  let m := (Qsum ws / inject_Z period)%Q in
  let v :=
    (Qsum (map (fun w => ((w + - m) * (w + - m))%Q) ws)
     / inject_Z period)%Q in
  (0 <= v)%Q
  /\ calculateSMA (closes_of candles) period = Fin m
  /\ StrategyService.calculateBollingerBands candles period mult
     = {| StrategyService.upper := Fin (m + Qsqrt v * mult);
          StrategyService.middle := Fin m;
          StrategyService.lower := Fin (m + - (Qsqrt v * mult)) |}.
Proof.
  intros Hp. cbv zeta.
  assert (Hlen : (1 <= period <= len (map close candles))%Z)
    by (now rewrite len_map).
  set (ws := slice_from (- period) (map close candles)).
  set (m := (Qsum ws / inject_Z period)%Q).
  set (v := (Qsum (map (fun w => ((w + - m) * (w + - m))%Q) ws)
             / inject_Z period)%Q).
  assert (Hv : (0 <= v)%Q).
  { unfold v. apply Qle_shift_div_l.
    - change 0%Q with (inject_Z 0). rewrite <- Zlt_Qlt. lia.
    - rewrite Qmult_0_l. apply Qsum_nonneg. intros q Hq.
      apply in_map_iff in Hq. destruct Hq as (w & <- & _).
      generalize (w + - m)%Q. intros x. nra. }
  assert (Hsma : calculateSMA (closes_of candles) period = Fin m).
  { rewrite closes_of_map. now apply calculateSMA_value. }
  split; [exact Hv|]. split; [exact Hsma|].
  unfold StrategyService.calculateBollingerBands. rewrite len_closes_of.
  destruct (len candles <? period)%Z eqn:E; [lia|].
  rewrite Hsma. rewrite closes_of_map, slice_from_map. fold ws.
  rewrite squared_diffs_Fin, sum_Fin. fold m.
  unfold ofZ, div. rewrite inject_Z_nonzero by lia. fold v.
  unfold Math_sqrt.
  assert (Ev : Qltb v 0 = false) by (now apply Qltb_ge).
  rewrite Ev. reflexivity.
Qed.

(** X3.  With at least [period >= 1] candles the three Bollinger bands are
    finite and the middle band is the SMA; if [Math.sqrt] is non-negative
    and the multiplier is not negative, lower <= middle <= upper. *)
Theorem bollinger_bands_ordered (candles : list MarketCandle) (period : Z)
  (mult : Q) :
  (1 <= period <= len candles)%Z ->
  exists u m l : Q,
    StrategyService.calculateBollingerBands candles period mult
    = {| StrategyService.upper := Fin u; StrategyService.middle := Fin m;
         StrategyService.lower := Fin l |}
    /\ calculateSMA (closes_of candles) period = Fin m
    /\ (sqrt_nonneg -> (0 <= mult)%Q -> (l <= m <= u)%Q).
Proof.
  intros Hp.
  destruct (bands_value candles period mult Hp) as (Hv & Hsma & Hb).
  cbv zeta in Hv, Hsma, Hb. eexists _, _, _.
  split; [exact Hb|]. split; [exact Hsma|].
  intros Hsqrt Hmult. specialize (Hsqrt _ Hv). nra.
Qed.

End Bollinger.

Lemma approx_sqrt_nonneg : sqrt_nonneg (H := approxMath).
Proof.
  intros q _. cbn [Qsqrt approxMath]. unfold sqrt_approx.
  apply Qle_shift_div_l.
  - change 0%Q with (inject_Z 0). rewrite <- Zlt_Qlt. lia.
  - rewrite Qmult_0_l. change 0%Q with (inject_Z 0). rewrite <- Zle_Qle.
    apply Z.sqrt_nonneg.
Qed.

Lemma approx_sqrt_zero : sqrt_zero (H := approxMath).
Proof.
  intros q Hq. cbn [Qsqrt approxMath]. unfold sqrt_approx.
  assert (E : Qnum q = 0%Z) by (unfold Qeq in Hq; simpl in Hq; lia).
  rewrite E. cbn [Z.mul Z.sqrt]. unfold Qdiv. apply Qmult_0_l.
Qed.

Lemma bollinger_bands_ordered_witness :
  exists u m l : Q,
    StrategyService.calculateBollingerBands (H := approxMath) falling 5 2
    = {| StrategyService.upper := Fin u; StrategyService.middle := Fin m;
         StrategyService.lower := Fin l |}
    /\ (l <= m <= u)%Q.
Proof.
  destruct (bollinger_bands_ordered (H := approxMath) falling 5 2)
    as (u & m & l & Hb & _ & Hord).
  - vm_compute. split; discriminate.
  - exists u, m, l. split; [exact Hb|].
    apply Hord; [exact approx_sqrt_nonneg | vm_compute; discriminate].
Defined.

(** ** Reading finite lists *)

Lemma get_map_Fin_nth (es : list Q) (i : Z) :
  (0 <= i < len es)%Z ->
  get (map Fin es) i = Fin (nth (Z.to_nat i) es 0%Q).
Proof.
  intros Hi. rewrite get_nth by lia.
  assert (Hn : (Z.to_nat i < length es)%nat) by (unfold len in Hi; lia).
  revert Hn. generalize (Z.to_nat i). clear Hi.
  induction es as [|x es IH]; intros [|n] Hn; cbn in Hn; cbn [map nth];
    try lia; [reflexivity | apply IH; lia].
Qed.

Lemma flat_closes (candles : list MarketCandle) (c : Q) :
  (forall x, In x candles -> (close x == c)%Q) ->
  forall q, In q (map close candles) -> (q == c)%Q.
Proof.
  intros Hflat q Hq. apply in_map_iff in Hq.
  destruct Hq as (x & <- & Hx). now apply Hflat.
Qed.

(** ** The insight of a strategy *)

Section Insight.
Context `{MathLib}.

(** X7.  The raw score of an insight has the sign of its signal: positive
    for BUY, negative for SELL, and exactly 0 for NEUTRAL. *)
Theorem insight_score_sign (strategy : StrategyType)
  (candles : list MarketCandle) (activePositions : list Trade)
  (allMarketData : gmap string (list MarketCandle))
  (params : StrategyParameters) (regime : RegimeService.MarketRegime) :
  let insight :=
    RegimeService.getStrategyInsight strategy candles activePositions
      allMarketData params regime in
  match RegimeService.i_signal insight with
  | BUY => (RegimeService.rawScore insight >. Fin 0) = true
  | SELL => (RegimeService.rawScore insight <. Fin 0) = true
  | NEUTRAL => RegimeService.rawScore insight = Fin 0
  end.
Proof.
  cbv zeta. unfold RegimeService.getStrategyInsight.
  destruct strategy;
    unfold RegimeService.insight_MA_CROSSOVER,
      RegimeService.insight_RSI_REVERSION,
      RegimeService.insight_BOLLINGER_BREAKOUT,
      RegimeService.insight_MACD_TREND;
    try destruct (RegimeService.rsi_thresholds params regime);
    cbv zeta;
    repeat match goal with
           | |- context [if ?b then _ else _] => destruct b
           end;
    reflexivity.
Qed.

Lemma floor_fifth_nonneg (t : Q) : (0 <= t)%Q -> (0 <= Qfloor (t / 5))%Z.
Proof.
  intros Ht. change 0%Z with (Qfloor 0). apply Qfloor_resp_le.
  apply Qle_shift_div_l; lra.
Qed.

(** X8.  The regime-aware RSI insight against [getStrategySignal] for RSI
    Reversion.  Under a RANGING regime the two agree.  Under any regime
    whose trend strength is a finite non-negative number, and with the
    oversold threshold not above the overbought one, the insight only
    withholds signals: it is NEUTRAL, or it is the signal of
    [getStrategySignal]. *)
Theorem rsi_insight_restricts (candles : list MarketCandle)
  (activePositions : list Trade)
  (allMarketData : gmap string (list MarketCandle))
  (params : StrategyParameters) (regime : RegimeService.MarketRegime)
  (t : Q) :
  let insight :=
    RegimeService.i_signal
      (RegimeService.getStrategyInsight RSI_REVERSION candles
         activePositions allMarketData params regime) in
  let plain :=
    StrategyService.getStrategySignal RSI_REVERSION candles activePositions
      allMarketData params in
  (RegimeService.r_type regime = RegimeService.RANGING -> insight = plain)
  /\ (RegimeService.trendStrength regime = Fin t -> (0 <= t)%Q ->
      (rsiOversold params <= rsiOverbought params)%Q ->
      insight = NEUTRAL \/ insight = plain).
Proof.
  cbv zeta. cbn [StrategyService.getStrategySignal].
  unfold RegimeService.getStrategyInsight,
    RegimeService.insight_RSI_REVERSION, RegimeService.rsi_thresholds,
    StrategyService.case_RSI_REVERSION.
  split.
  - intros Hr. rewrite Hr.
    destruct (calculateRSI candles (rsiPeriod params)
              <. Fin (rsiOversold params)); [reflexivity|].
    destruct (calculateRSI candles (rsiPeriod params)
              >. Fin (rsiOverbought params)); reflexivity.
  - intros Ht Hnonneg Horder. rewrite Ht.
    destruct (calculateRSI_within candles (rsiPeriod params))
      as (r & -> & _).
    pose proof (floor_fifth_nonneg t Hnonneg) as Hfloor.
    rewrite Zle_Qle in Hfloor. change (inject_Z 0) with 0%Q in Hfloor.
    assert (E5 : Qeq_bool 5 0 = false) by reflexivity.
    cbv zeta. cbn [div Math_floor ofZ add sub neg]. rewrite E5.
    cbn [Math_floor ofZ add sub neg].
    destruct (RegimeService.r_type regime); cbn [lt gt];
      repeat match goal with
             | |- context [Qltb ?a ?b] =>
                 let E := fresh "E" in
                 destruct (Qltb a b) eqn:E;
                 [apply Qltb_lt in E | apply Qltb_ge in E]
             end;
      cbn [RegimeService.i_signal]; auto; exfalso; lra.
Qed.

End Insight.

Lemma rsi_insight_restricts_witness :
  RegimeService.i_signal
    (RegimeService.getStrategyInsight (H := approxMath) RSI_REVERSION
       falling [] ∅ defaultParams quietRegime)
  = StrategyService.getStrategySignal (H := approxMath) RSI_REVERSION
      falling [] ∅ defaultParams
  /\ let insight :=
       RegimeService.i_signal
         (RegimeService.getStrategyInsight (H := approxMath) RSI_REVERSION
            flat30 [] ∅ defaultParams upTrend) in
     insight = NEUTRAL
     \/ insight = StrategyService.getStrategySignal (H := approxMath)
                    RSI_REVERSION flat30 [] ∅ defaultParams.
Proof.
  split.
  - apply (proj1 (rsi_insight_restricts (H := approxMath) falling [] ∅
                    defaultParams quietRegime 0)).
    reflexivity.
  - apply (proj2 (rsi_insight_restricts (H := approxMath) flat30 [] ∅
                    defaultParams upTrend 40)).
    + reflexivity.
    + vm_compute. discriminate.
    + vm_compute. discriminate.
Defined.

(** ** The table of tuning factors *)

(** X9.  For a base weight with at most one decimal (the panel's integer
    weights among them) the adjusted weight is exactly the base weight
    times one factor, read from the table of strategy family against
    regime: the three rules never compound. *)
Theorem autoTune_table (type : StrategyType)
  (regime : RegimeService.MarketRegime) (w : Q) (n : Z) :
  (w == inject_Z n / 10)%Q ->
  num_eq (RegimeService.autoTune type regime w)
    (Fin (w * tuning_factor type regime)).
Proof.
  intros Hw. unfold RegimeService.autoTune, tuning_factor.
  destruct type, (RegimeService.r_type regime);
    cbn [RegimeService.is_trend_strategy RegimeService.is_reversion_strategy
         RegimeService.is_trending RegimeService.is_ranging
         RegimeService.is_volatile mul toFixed2];
    try destruct (RegimeService.trendStrength regime >. Fin 70);
    cbn [mul toFixed2 num_eq];
    match goal with
    | |- (Qround2 (w * 1.5) == _)%Q =>
        apply (Qround2_fixed (15 * n)); rewrite Hw, inject_Z_mult; field
    | |- (Qround2 (w * 0.5) == _)%Q =>
        apply (Qround2_fixed (5 * n)); rewrite Hw, inject_Z_mult; field
    | |- (Qround2 (w * 0.7) == _)%Q =>
        apply (Qround2_fixed (7 * n)); rewrite Hw, inject_Z_mult; field
    | |- (Qround2 w == _)%Q =>
        rewrite (Qround2_fixed (10 * n) w)
          by (rewrite Hw, inject_Z_mult; field);
        ring
    end.
Qed.

Lemma autoTune_table_witness :
  num_eq (RegimeService.autoTune MA_CROSSOVER quietRegime 5) (Fin 2.5)
  /\ num_eq (RegimeService.autoTune RSI_REVERSION upTrend 5) (Fin 5).
Proof.
  split.
  - apply (autoTune_table MA_CROSSOVER quietRegime 5 50). reflexivity.
  - apply (autoTune_table RSI_REVERSION upTrend 5 50). reflexivity.
Defined.

(** ** The standard deviation *)

Lemma fold_squares_Fin (m : Q) (rs : list Q) :
  forall a : Q,
    fold_left (fun a b => a +. Math_pow2 (b -. Fin m)) (map Fin rs) (Fin a)
    = Fin (fold_left (fun a b => a + (b + - m) * (b + - m))%Q rs a).
Proof.
  induction rs as [|r rs IH]; intros a; cbn [map fold_left];
    [reflexivity | apply IH].
Qed.

Lemma fold_squares_ge (m : Q) (rs : list Q) :
  forall a : Q,
    (a <= fold_left (fun a b => a + (b + - m) * (b + - m)) rs a)%Q.
Proof.
  induction rs as [|r rs IH]; intros a; cbn [fold_left]; [lra|].
  eapply Qle_trans; [|apply IH].
  generalize (r + - m)%Q. intros x. nra.
Qed.

Lemma fold_squares_zero (m : Q) (rs : list Q) :
  (forall r, In r rs -> (r == m)%Q) ->
  forall a : Q,
    (fold_left (fun a b => a + (b + - m) * (b + - m)) rs a == a)%Q.
Proof.
  induction rs as [|r rs IH]; intros Hrs a; cbn [fold_left]; [reflexivity|].
  rewrite IH by (intros; apply Hrs; now right).
  rewrite (Hrs r) by now left. ring.
Qed.

Lemma len_positive {A} (l : list A) : l <> [] -> (1 <= len l)%Z.
Proof. destruct l; [congruence|]. unfold len. cbn [length]. lia. Qed.

Lemma Qvariance_nonneg (ws : list Q) : ws <> [] -> (0 <= Qvariance ws)%Q.
Proof.
  intros Hne. pose proof (len_positive ws Hne). unfold Qvariance.
  apply Qle_shift_div_l.
  - change 0%Q with (inject_Z 0). rewrite <- Zlt_Qlt. lia.
  - rewrite Qmult_0_l. apply fold_squares_ge.
Qed.

Lemma Qvariance_constant (ws : list Q) (c : Q) :
  ws <> [] -> (forall w, In w ws -> (w == c)%Q) -> (Qvariance ws == 0)%Q.
Proof.
  intros Hne Hws. pose proof (len_positive ws Hne) as Hlen.
  assert (Hnz : ~ (inject_Z (len ws) == 0)%Q).
  { intros E. unfold Qeq in E. simpl in E. lia. }
  assert (Hm : (Qmean ws == c)%Q).
  { unfold Qmean. rewrite (Qsum_constant c ws Hws). now field. }
  unfold Qvariance. rewrite fold_squares_zero.
  - now field.
  - intros w Hw. now rewrite Hm, (Hws w Hw).
Qed.

Section StdDev.
Context `{MathLib}.

Lemma calculateStdDev_value (ws : list Q) :
  ws <> [] ->
  RegimeService.calculateStdDev (map Fin ws) = Fin (Qsqrt (Qvariance ws)).
Proof.
  intros Hne. pose proof (len_positive ws Hne) as Hlen.
  unfold RegimeService.calculateStdDev. cbv zeta.
  rewrite sum_Fin, len_map. unfold ofZ, div at 2.
  rewrite inject_Z_nonzero by lia. fold (Qmean ws).
  rewrite fold_squares_Fin. unfold div. rewrite inject_Z_nonzero by lia.
  fold (Qvariance ws). unfold Math_sqrt.
  assert (E : Qltb (Qvariance ws) 0 = false)
    by (apply Qltb_ge; now apply Qvariance_nonneg).
  now rewrite E.
Qed.

(** X10.  [calculateStdDev] of an empty list is NaN (0/0); of a non-empty
    list of finite numbers it is a finite number, non-negative when
    [Math.sqrt] is. *)
Theorem calculateStdDev_cases (ws : list Q) :
  RegimeService.calculateStdDev [] = NaN
  /\ (ws <> [] ->
      exists s : Q,
        RegimeService.calculateStdDev (map Fin ws) = Fin s
        /\ (sqrt_nonneg -> (0 <= s)%Q)).
Proof.
  split; [reflexivity|]. intros Hne.
  exists (Qsqrt (Qvariance ws)). split; [now apply calculateStdDev_value|].
  intros Hsqrt. apply Hsqrt. now apply Qvariance_nonneg.
Qed.

End StdDev.

Lemma calculateStdDev_cases_witness :
  exists s : Q,
    RegimeService.calculateStdDev (H := approxMath) (map Fin [1; 2; 4]%Q)
    = Fin s
    /\ (0 <= s)%Q.
Proof.
  destruct (calculateStdDev_cases (H := approxMath) [1; 2; 4]%Q)
    as [_ Hsome].
  destruct (Hsome ltac:(discriminate)) as (s & Es & Hpos).
  exists s. split; [exact Es|]. apply Hpos. exact approx_sqrt_nonneg.
Defined.

(** ** The scores of the market regime *)

Lemma Qsum_positive (qs : list Q) :
  qs <> [] -> (forall q, In q qs -> (0 < q)%Q) -> (0 < Qsum qs)%Q.
Proof.
  intros Hne Hq. destruct qs as [|q qs]; [congruence|].
  rewrite Qsum_cons.
  pose proof (Hq q (or_introl eq_refl)).
  pose proof (Qsum_nonneg qs
                (fun x Hx => Qlt_le_weak _ _ (Hq x (or_intror Hx)))).
  lra.
Qed.

Lemma slice_from_nonempty {A} (n : Z) (l : list A) :
  (0 < n)%Z -> l <> [] -> slice_from (- n) l <> [].
Proof.
  intros Hn Hl Hnil. pose proof (slice_from_length n l Hn) as Hlen.
  rewrite Hnil in Hlen. pose proof (len_positive l Hl).
  unfold len in Hlen at 1. cbn in Hlen. lia.
Qed.

Lemma nth_positive (qs : list Q) (i : Z) :
  (forall q, In q qs -> (0 < q)%Q) -> (0 <= i < len qs)%Z ->
  (0 < nth (Z.to_nat i) qs 0)%Q.
Proof.
  intros Hq Hi. apply Hq, nth_In. unfold len in Hi. lia.
Qed.

Lemma returns_Fin (qs : list Q) :
  (forall q, In q qs -> (0 < q)%Q) ->
  map (fun i : Z =>
         (get (map Fin qs) i -. get (map Fin qs) (i - 1))
         /. get (map Fin qs) (i - 1))
      (range 1 (len (map Fin qs)))
  = map Fin (Qreturns qs).
Proof.
  intros Hq. rewrite len_map. unfold Qreturns. rewrite map_map.
  apply map_ext_in. intros i Hi. apply in_range in Hi.
  rewrite !get_map_Fin_nth by lia.
  pose proof (nth_positive qs (i - 1) Hq ltac:(lia)) as Hb.
  cbn [sub neg add]. unfold div.
  assert (E : Qeq_bool (nth (Z.to_nat (i - 1)) qs 0%Q) 0 = false)
    by (apply Qeq_bool_false; lra).
  now rewrite E.
Qed.

Lemma Qreturns_length (qs : list Q) :
  len (Qreturns qs) = Z.max 0 (len qs - 1).
Proof. unfold Qreturns. now rewrite len_map, range_length. Qed.

Lemma Qreturns_flat (qs : list Q) (c : Q) :
  (0 < c)%Q -> (forall q, In q qs -> (q == c)%Q) ->
  forall r, In r (Qreturns qs) -> (r == 0)%Q.
Proof.
  intros Hc Hq r Hr. unfold Qreturns in Hr. apply in_map_iff in Hr.
  destruct Hr as (i & <- & Hi). apply in_range in Hi.
  assert (Ha : (nth (Z.to_nat i) qs 0 == c)%Q)
    by (apply Hq, nth_In; unfold len in Hi; lia).
  assert (Hb : (nth (Z.to_nat (i - 1)) qs 0 == c)%Q)
    by (apply Hq, nth_In; unfold len in Hi; lia).
  rewrite Ha, Hb. field. lra.
Qed.

Lemma min_hundred_within (y : Q) :
  (0 <= y)%Q -> within 0 100 (Math_min (Fin 100) (Fin y)).
Proof.
  intros Hy. cbn [Math_min le].
  destruct (Qle_bool 100 y) eqn:E.
  - exists 100%Q. split; [reflexivity | lra].
  - apply Qle_bool_false in E. exists y. split; [reflexivity | lra].
Qed.

Lemma min_hundred_zero (y : Q) :
  (y == 0)%Q ->
  exists z : Q, Math_min (Fin 100) (Fin y) = Fin z /\ (z == 0)%Q.
Proof.
  intros Hy. cbn [Math_min le].
  assert (E : Qle_bool 100 y = false) by (apply Qle_bool_false; lra).
  rewrite E. eauto.
Qed.

Section RegimeScores.
Context `{MathLib}.

Lemma volatility_value (qs : list Q) :
  (forall q, In q qs -> (0 < q)%Q) -> (2 <= len qs)%Z ->
  RegimeService.volatility_score (map Fin qs)
  = Math_min (Fin 100)
      (Fin (Qsqrt (Qvariance (slice_from (-20) (Qreturns qs)))
            * Qsqrt (inject_Z 20) * 10000)).
Proof.
  intros Hq Hlen. unfold RegimeService.volatility_score. cbv zeta.
  rewrite returns_Fin by assumption.
  change (- (20))%Z with (-20)%Z. rewrite slice_from_map.
  rewrite calculateStdDev_value; [reflexivity|].
  apply (slice_from_nonempty 20); [lia|]. intros Hnil.
  pose proof (Qreturns_length qs) as Hl. rewrite Hnil in Hl.
  unfold len in Hl at 1. cbn in Hl. lia.
Qed.

Lemma trend_value (qs : list Q) :
  (forall q, In q qs -> (0 < q)%Q) -> (25 <= len qs)%Z ->
  let sm := (Qsum (slice_from (-7) qs) / inject_Z 7)%Q in
  let lm := (Qsum (slice_from (-25) qs) / inject_Z 25)%Q in
  (0 < lm)%Q
  /\ calculateSMA (map Fin qs) 7 = Fin sm
  /\ calculateSMA (map Fin qs) 25 = Fin lm
  /\ RegimeService.trend_score (map Fin qs)
     = Math_min (Fin 100) (Fin (Qabs ((sm + - lm) / lm) * 5000)).
Proof.
  intros Hq Hlen. cbv zeta.
  assert (Hl : (0 < Qsum (slice_from (-25) qs) / inject_Z 25)%Q).
  { apply Qlt_shift_div_l; [reflexivity|]. rewrite Qmult_0_l.
    apply Qsum_positive.
    - apply (slice_from_nonempty 25); [lia|]. intros ->.
      unfold len in Hlen. cbn in Hlen. lia.
    - intros q Hin. apply Hq. eapply In_slice_from. exact Hin. }
  split; [exact Hl|].
  pose proof (calculateSMA_value qs 7 ltac:(lia)) as H7.
  pose proof (calculateSMA_value qs 25 ltac:(lia)) as H25.
  change (- (7))%Z with (-7)%Z in H7. change (- (25))%Z with (-25)%Z in H25.
  split; [exact H7|]. split; [exact H25|].
  unfold RegimeService.trend_score. cbv zeta. rewrite H7, H25.
  cbn [sub neg add]. unfold div.
  assert (E : Qeq_bool (Qsum (slice_from (-25) qs) / inject_Z 25) 0 = false)
    by (apply Qeq_bool_false; lra).
  rewrite E. reflexivity.
Qed.

Lemma regime_fields (candles : list MarketCandle) :
  (30 <= len candles)%Z ->
  RegimeService.volatility (RegimeService.analyzeMarketRegime candles)
  = RegimeService.volatility_score (closes_of candles)
  /\ RegimeService.trendStrength
       (RegimeService.analyzeMarketRegime candles)
     = RegimeService.trend_score (closes_of candles).
Proof.
  intros Hlen. unfold RegimeService.analyzeMarketRegime.
  destruct (len candles <? 30)%Z eqn:E; [lia|]. cbv zeta.
  repeat match goal with
         | |- context [if ?b then _ else _] => destruct b
         end; split; reflexivity.
Qed.

Lemma positive_closes (candles : list MarketCandle) :
  (forall x, In x candles -> (0 < close x)%Q) ->
  forall q, In q (map close candles) -> (0 < q)%Q.
Proof.
  intros Hpos q Hq. apply in_map_iff in Hq.
  destruct Hq as (x & <- & Hx). now apply Hpos.
Qed.

(** X5.  On candles with positive closes, and with a non-negative
    [Math.sqrt], the volatility score and the trend-strength score that
    [analyzeMarketRegime] reports are finite numbers in [[0, 100]]. *)
Theorem regime_scores_bounded (candles : list MarketCandle) :
  sqrt_nonneg ->
  (forall x, In x candles -> (0 < close x)%Q) ->
  let r := RegimeService.analyzeMarketRegime candles in
  within 0 100 (RegimeService.volatility r)
  /\ within 0 100 (RegimeService.trendStrength r).
Proof.
  intros Hsqrt Hpos. cbv zeta.
  destruct (Z_lt_le_dec (len candles) 30) as [Hshort | Hlong].
  - unfold RegimeService.analyzeMarketRegime.
    destruct (len candles <? 30)%Z eqn:E; [|lia].
    cbn [RegimeService.volatility RegimeService.trendStrength].
    split; exists 0%Q; (split; [reflexivity | lra]).
  - destruct (regime_fields candles Hlong) as [-> ->].
    rewrite closes_of_map.
    pose proof (positive_closes candles Hpos) as Hq.
    assert (Hl : len (map close candles) = len candles) by apply len_map.
    split.
    + rewrite volatility_value by (try assumption; lia).
      apply min_hundred_within.
      assert (Hv : (0 <= Qsqrt (Qvariance
                                  (slice_from (-20)
                                     (Qreturns (map close candles)))))%Q).
      { apply Hsqrt, Qvariance_nonneg.
        apply (slice_from_nonempty 20); [lia|]. intros Hnil.
        pose proof (Qreturns_length (map close candles)) as Hr.
        rewrite Hnil in Hr. unfold len in Hr at 1. cbn in Hr. lia. }
      assert (H20 : (0 <= Qsqrt (inject_Z 20))%Q)
        by (apply Hsqrt; vm_compute; discriminate).
      nra.
    + destruct (trend_value (map close candles) Hq ltac:(lia))
        as (_ & _ & _ & ->).
      apply min_hundred_within.
      match goal with
      | |- (0 <= Qabs ?x * 5000)%Q => pose proof (Qabs_nonneg x)
      end. lra.
Qed.

(** X6.  On 30 or more candles at one positive price the regime is
    RANGING with volatility score 0: every return is 0, and so are their
    mean, their variance and, with [Math.sqrt 0 = 0], their deviation. *)
Theorem flat_market_regime (candles : list MarketCandle) (c : Q) :
  sqrt_zero ->
  (30 <= len candles)%Z ->
  (forall x, In x candles -> (close x == c)%Q) ->
  (0 < c)%Q ->
  let r := RegimeService.analyzeMarketRegime candles in
  RegimeService.r_type r = RegimeService.RANGING
  /\ num_eq (RegimeService.volatility r) (Fin 0).
Proof.
  intros Hsqrt Hlen Hflat Hc. cbv zeta.
  pose proof (flat_closes candles c Hflat) as Hq.
  assert (Hpos : forall q, In q (map close candles) -> (0 < q)%Q)
    by (intros q Hin; rewrite (Hq q Hin); exact Hc).
  assert (Hl : len (map close candles) = len candles) by apply len_map.
  assert (Hvol : exists y : Q,
             RegimeService.volatility_score (closes_of candles) = Fin y
             /\ (y == 0)%Q).
  { rewrite closes_of_map, volatility_value by (try assumption; lia).
    apply min_hundred_zero.
    rewrite (Hsqrt (Qvariance _)); [ring|].
    apply Qvariance_constant with 0%Q.
    - apply (slice_from_nonempty 20); [lia|]. intros Hnil.
      pose proof (Qreturns_length (map close candles)) as Hr.
      rewrite Hnil in Hr. unfold len in Hr at 1. cbn in Hr. lia.
    - intros w Hw. apply In_slice_from in Hw.
      now apply (Qreturns_flat (map close candles) c Hc Hq). }
  assert (Htrend : exists y : Q,
             RegimeService.trend_score (closes_of candles) = Fin y
             /\ (y == 0)%Q).
  { rewrite closes_of_map.
    destruct (trend_value (map close candles) Hpos ltac:(lia))
      as (_ & _ & _ & ->).
    apply min_hundred_zero.
    assert (Hmean : forall p : Z, (1 <= p <= 30)%Z ->
              (Qsum (slice_from (- p) (map close candles)) / inject_Z p
               == c)%Q).
    { intros p Hp. rewrite (Qsum_constant c).
      - rewrite slice_from_length by lia. rewrite Z.min_l by lia.
        field. intros E0. unfold Qeq in E0. simpl in E0. lia.
      - intros q Hin. apply In_slice_from in Hin. now apply Hq. }
    pose proof (Hmean 7%Z ltac:(lia)) as H7.
    pose proof (Hmean 25%Z ltac:(lia)) as H25.
    change (- (7))%Z with (-7)%Z in H7.
    change (- (25))%Z with (-25)%Z in H25.
    rewrite H7, H25.
    assert (E0 : ((c + - c) / c == 0)%Q) by (field; lra).
    rewrite E0. reflexivity. }
  destruct Hvol as (y & Ey & Hy), Htrend as (z & Ez & Hz).
  unfold RegimeService.analyzeMarketRegime.
  destruct (len candles <? 30)%Z eqn:E; [lia|]. cbv zeta.
  rewrite Ey, Ez. cbn [gt lt].
  assert (E1 : Qltb 60 y = false) by (apply Qltb_ge; lra).
  assert (E2 : Qltb 20 z = false) by (apply Qltb_ge; lra).
  rewrite E1, E2.
  cbn [RegimeService.r_type RegimeService.volatility
       RegimeService.trendStrength num_eq].
  auto.
Qed.

End RegimeScores.

Lemma sample_positive (x : MarketCandle) :
  In x (falling ++ flat30) -> (0 < close x)%Q.
Proof.
  intros Hx. apply in_app_or in Hx. destruct Hx as [Hx | Hx].
  - unfold falling in Hx. apply in_map_iff in Hx.
    destruct Hx as (k & <- & Hk). apply in_seq in Hk.
    cbn [close candle]. change 0%Q with (inject_Z 0).
    rewrite <- Zlt_Qlt. lia.
  - apply repeat_spec in Hx. subst x. reflexivity.
Qed.

Lemma regime_scores_bounded_witness :
  let r :=
    RegimeService.analyzeMarketRegime (H := approxMath) (falling ++ flat30)
  in
  within 0 100 (RegimeService.volatility r)
  /\ within 0 100 (RegimeService.trendStrength r).
Proof.
  apply (regime_scores_bounded (H := approxMath) (falling ++ flat30)).
  - exact approx_sqrt_nonneg.
  - exact sample_positive.
Defined.

Lemma flat_market_regime_witness :
  let r := RegimeService.analyzeMarketRegime (H := approxMath) flat30 in
  RegimeService.r_type r = RegimeService.RANGING
  /\ num_eq (RegimeService.volatility r) (Fin 0).
Proof.
  apply (flat_market_regime (H := approxMath) flat30 2000).
  - exact approx_sqrt_zero.
  - vm_compute. discriminate.
  - intros x Hx. apply repeat_spec in Hx. subst x. reflexivity.
  - reflexivity.
Defined.

(** ** The composites as weighted means *)

Lemma numericSignal_vote (s : Signal) : numericSignal s = Fin (vote s).
Proof. now destruct s. Qed.

Lemma autoTune_adjusted (type : StrategyType)
  (regime : RegimeService.MarketRegime) (w : Q) :
  RegimeService.autoTune type regime w = Fin (adjusted type regime w).
Proof.
  unfold adjusted.
  destruct (autoTune_factor type regime w) as (x & m & -> & _).
  reflexivity.
Qed.

Lemma Qsum_map_scaled {A} (f g : A -> Q) (v : Q) (l : list A) :
  (forall x, In x l -> (f x == v * g x)%Q) ->
  (Qsum (map f l) == v * Qsum (map g l))%Q.
Proof.
  induction l as [|x l IH]; intros Hf; cbn [map].
  - unfold Qsum. cbn. ring.
  - rewrite !Qsum_cons, IH by (intros; apply Hf; now right).
    rewrite (Hf x) by now left. ring.
Qed.

Lemma Qsum_map_positive {A} (g : A -> Q) (l : list A) :
  l <> [] -> (forall x, In x l -> (0 < g x)%Q) -> (0 < Qsum (map g l))%Q.
Proof.
  intros Hne Hg. apply Qsum_positive.
  - destruct l; [congruence | discriminate].
  - intros q Hq. apply in_map_iff in Hq. destruct Hq as (x & <- & Hx).
    now apply Hg.
Qed.

Lemma finalSignal_proper (x y : Q) :
  (x == y)%Q -> finalSignal (Fin x) = finalSignal (Fin y).
Proof.
  intros Hxy. unfold finalSignal. cbn [gt lt]. unfold Qltb.
  assert (E1 : Qle_bool x 0.25 = Qle_bool y 0.25) by (now rewrite Hxy).
  assert (E2 : Qle_bool (-0.25) x = Qle_bool (-0.25) y)
    by (now rewrite Hxy).
  now rewrite E1, E2.
Qed.

Lemma finalSignal_vote (x : Q) (sig : Signal) :
  (x == vote sig)%Q -> finalSignal (Fin x) = sig.
Proof.
  intros Hx. rewrite (finalSignal_proper x (vote sig) Hx).
  now destruct sig.
Qed.

Section WeightedMean.
Context `{MathLib}.
Variables (candles : list MarketCandle) (activePositions : list Trade)
  (allMarketData : gmap string (list MarketCandle))
  (params : StrategyParameters).

(** The breakdown entry and the weighted vote of one configuration item
    in the weighted composite. *)
Let item (s : StrategyConfigItem) : StrategyService.BreakdownItem :=
  {| StrategyService.b_type := sc_type s;
     StrategyService.b_signal :=
       StrategyService.getStrategySignal (sc_type s) candles
         activePositions allMarketData params;
     StrategyService.b_weight := weight s |}.

Let ballot (s : StrategyConfigItem) : Q :=
  (vote (StrategyService.getStrategySignal (sc_type s) candles
           activePositions allMarketData params) * weight s)%Q.

Lemma weighted_fold_closed (l : list StrategyConfigItem) :
  forall (a b : Q) (its : list StrategyService.BreakdownItem),
    fold_left
      (StrategyService.tally candles activePositions allMarketData params)
      l {| StrategyService.totalScore := Fin a;
           StrategyService.totalWeight := Fin b;
           StrategyService.items := its |}
    = {| StrategyService.totalScore := Fin (fold_left Qplus (map ballot l) a);
         StrategyService.totalWeight :=
           Fin (fold_left Qplus (map weight l) b);
         StrategyService.items := its ++ map item l |}.
Proof.
  induction l as [|s l IH]; intros a b its; cbn [fold_left map].
  - now rewrite app_nil_r.
  - unfold StrategyService.tally at 2.
    cbn [StrategyService.totalScore StrategyService.totalWeight
         StrategyService.items].
    rewrite numericSignal_vote. cbn [mul add]. rewrite IH.
    now rewrite <- app_assoc.
Qed.

Lemma weighted_composite_closed (strategies : list StrategyConfigItem) :
  let en := List.filter enabled strategies in
  let S := Qsum (map ballot en) in
  let W := Qsum (map weight en) in
  StrategyService.getCompositeStrategySignal strategies candles
    activePositions allMarketData params
  = if Qeq_bool W 0
    then {| StrategyService.signal := NEUTRAL;
            StrategyService.score := Fin 0;
            StrategyService.breakdown := map item en |}
    else {| StrategyService.signal := finalSignal (Fin (S / W));
            StrategyService.score := Fin (S / W);
            StrategyService.breakdown := map item en |}.
Proof.
  cbv zeta. unfold StrategyService.getCompositeStrategySignal,
    StrategyService.accumulate.
  rewrite weighted_fold_closed.
  cbn [StrategyService.totalScore StrategyService.totalWeight
       StrategyService.items seq_num app].
  fold (Qsum (map weight (List.filter enabled strategies))).
  fold (Qsum (map ballot (List.filter enabled strategies))).
  destruct (Qeq_bool (Qsum (map weight (List.filter enabled strategies))) 0)
    eqn:E; [reflexivity|].
  unfold div. rewrite E. reflexivity.
Qed.

(** The insight entry and the weighted vote of one configuration item in
    the regime-aware composite. *)
Let regime := RegimeService.analyzeMarketRegime candles.

Let insight (s : StrategyConfigItem) : RegimeService.StrategyInsight :=
  {| RegimeService.raw :=
       RegimeService.getStrategyInsight (sc_type s) candles activePositions
         allMarketData params regime;
     RegimeService.baseWeight := weight s;
     RegimeService.adjustedWeight :=
       RegimeService.autoTune (sc_type s) regime (weight s) |}.

Let tuned (s : StrategyConfigItem) : Q :=
  adjusted (sc_type s) regime (weight s).

Let aware_ballot (s : StrategyConfigItem) : Q :=
  (vote (RegimeService.i_signal
           (RegimeService.getStrategyInsight (sc_type s) candles
              activePositions allMarketData params regime))
   * tuned s)%Q.

Lemma aware_fold_closed (l : list StrategyConfigItem) :
  forall (a b : Q) (its : list RegimeService.StrategyInsight),
    fold_left
      (RegimeService.tally regime candles activePositions allMarketData
         params)
      l {| RegimeService.totalScore := Fin a;
           RegimeService.totalWeight := Fin b;
           RegimeService.items := its |}
    = {| RegimeService.totalScore :=
           Fin (fold_left Qplus (map aware_ballot l) a);
         RegimeService.totalWeight := Fin (fold_left Qplus (map tuned l) b);
         RegimeService.items := its ++ map insight l |}.
Proof.
  induction l as [|s l IH]; intros a b its; cbn [fold_left map].
  - now rewrite app_nil_r.
  - unfold RegimeService.tally at 2.
    cbn [RegimeService.totalScore RegimeService.totalWeight
         RegimeService.items].
    assert (Hi : insight s
                 = {| RegimeService.raw :=
                        RegimeService.getStrategyInsight (sc_type s) candles
                          activePositions allMarketData params regime;
                      RegimeService.baseWeight := weight s;
                      RegimeService.adjustedWeight := Fin (tuned s) |})
      by (unfold insight, tuned; f_equal; apply autoTune_adjusted).
    rewrite numericSignal_vote, autoTune_adjusted. cbn [mul add].
    rewrite IH, Hi. now rewrite <- app_assoc.
Qed.

Lemma aware_composite_closed (strategies : list StrategyConfigItem) :
  let en := List.filter enabled strategies in
  let S := Qsum (map aware_ballot en) in
  let W := Qsum (map tuned en) in
  let finalScore := if Qltb 0 W then Fin (S / W) else Fin 0 in
  RegimeService.getCompositeStrategySignal strategies candles
    activePositions allMarketData params
  = {| RegimeService.signal := finalSignal finalScore;
       RegimeService.score := finalScore;
       RegimeService.regime := regime;
       RegimeService.insights := map insight en |}.
Proof.
  cbv zeta. unfold RegimeService.getCompositeStrategySignal,
    RegimeService.accumulate. fold regime.
  rewrite aware_fold_closed.
  cbn [RegimeService.totalScore RegimeService.totalWeight
       RegimeService.items gt lt app].
  fold (Qsum (map tuned (List.filter enabled strategies))).
  fold (Qsum (map aware_ballot (List.filter enabled strategies))).
  destruct (Qltb 0 (Qsum (map tuned (List.filter enabled strategies))))
    eqn:E; [|reflexivity].
  apply Qltb_lt in E. unfold div.
  assert (E0 : Qeq_bool (Qsum (map tuned (List.filter enabled strategies)))
                 0 = false) by (apply Qeq_bool_false; lra).
  now rewrite E0.
Qed.

(** X11.  When at least one strategy is enabled, the enabled weights are at
    least 1, and all enabled strategies give one and the same signal, each
    composite returns that signal, with score 1 for BUY, -1 for SELL and 0
    for NEUTRAL.  (For the weighted composite the signals are those of
    [getStrategySignal], for the regime-aware one those of
    [getStrategyInsight].) *)
Theorem composite_unanimous (strategies : list StrategyConfigItem)
  (sig : Signal) :
  List.filter enabled strategies <> [] ->
  (forall s, In s strategies -> enabled s = true -> (1 <= weight s)%Q) ->
  ((forall s, In s strategies -> enabled s = true ->
      StrategyService.getStrategySignal (sc_type s) candles activePositions
        allMarketData params = sig) ->
   let result :=
     StrategyService.getCompositeStrategySignal strategies candles
       activePositions allMarketData params in
   StrategyService.signal result = sig
   /\ num_eq (StrategyService.score result) (Fin (vote sig)))
  /\ ((forall s, In s strategies -> enabled s = true ->
         RegimeService.i_signal
           (RegimeService.getStrategyInsight (sc_type s) candles
              activePositions allMarketData params
              (RegimeService.analyzeMarketRegime candles)) = sig) ->
      let result :=
        RegimeService.getCompositeStrategySignal strategies candles
          activePositions allMarketData params in
      RegimeService.signal result = sig
      /\ num_eq (RegimeService.score result) (Fin (vote sig))).
Proof.
  intros Hne Hw.
  assert (Hen : forall s, In s (List.filter enabled strategies) ->
            In s strategies /\ enabled s = true)
    by (intros s Hs; now apply filter_In in Hs).
  split; intros Hsig; cbv zeta.
  - rewrite weighted_composite_closed. cbv zeta.
    set (en := List.filter enabled strategies) in Hne, Hen. fold en.
    assert (HW : (0 < Qsum (map weight en))%Q).
    { apply Qsum_map_positive; [assumption|]. intros s Hs.
      destruct (Hen s Hs) as [Hin He]. specialize (Hw s Hin He). lra. }
    assert (HS : (Qsum (map ballot en) == vote sig * Qsum (map weight en))%Q).
    { apply Qsum_map_scaled. intros s Hs. destruct (Hen s Hs) as [Hin He].
      unfold ballot. now rewrite (Hsig s Hin He). }
    assert (E : Qeq_bool (Qsum (map weight en)) 0 = false)
      by (apply Qeq_bool_false; lra).
    rewrite E.
    cbn [StrategyService.signal StrategyService.score num_eq].
    assert (Hq : (Qsum (map ballot en) / Qsum (map weight en)
                  == vote sig)%Q) by (rewrite HS; field; lra).
    split; [now apply finalSignal_vote | exact Hq].
  - rewrite aware_composite_closed. cbv zeta.
    set (en := List.filter enabled strategies) in Hne, Hen. fold en.
    assert (HW : (0 < Qsum (map tuned en))%Q).
    { apply Qsum_map_positive; [assumption|]. intros s Hs.
      destruct (Hen s Hs) as [Hin He]. unfold tuned.
      destruct (autoTune_positive (sc_type s) regime (weight s)
                  (Hw s Hin He)) as (a & Ea & Ha).
      unfold adjusted. now rewrite Ea. }
    assert (HS : (Qsum (map aware_ballot en)
                  == vote sig * Qsum (map tuned en))%Q).
    { apply Qsum_map_scaled. intros s Hs. destruct (Hen s Hs) as [Hin He].
      unfold aware_ballot. fold regime in Hsig.
      now rewrite (Hsig s Hin He). }
    assert (E : Qltb 0 (Qsum (map tuned en)) = true) by (now apply Qltb_lt).
    rewrite E.
    cbn [RegimeService.signal RegimeService.score num_eq].
    assert (Hq : (Qsum (map aware_ballot en) / Qsum (map tuned en)
                  == vote sig)%Q) by (rewrite HS; field; lra).
    split; [now apply finalSignal_vote | exact Hq].
Qed.

End WeightedMean.

Lemma composite_unanimous_witness :
  (let result :=
     StrategyService.getCompositeStrategySignal (H := approxMath) mixA
       falling [] ∅ defaultParams in
   StrategyService.signal result = BUY
   /\ num_eq (StrategyService.score result) (Fin (vote BUY)))
  /\ (let result :=
        RegimeService.getCompositeStrategySignal (H := approxMath)
          [{| sc_type := RSI_REVERSION; enabled := true; weight := 5 |}]
          falling [] ∅ defaultParams in
      RegimeService.signal result = BUY
      /\ num_eq (RegimeService.score result) (Fin (vote BUY))).
Proof.
  split.
  - refine (proj1 (composite_unanimous (H := approxMath) falling [] ∅
                     defaultParams mixA BUY _ _) _).
    + vm_compute. discriminate.
    + intros s [<- | [<- | [<- | []]]] He; try discriminate He;
        vm_compute; discriminate.
    + intros s [<- | [<- | [<- | []]]] He; try discriminate He;
        vm_compute; reflexivity.
  - refine (proj2 (composite_unanimous (H := approxMath) falling [] ∅
                     defaultParams
                     [{| sc_type := RSI_REVERSION; enabled := true;
                         weight := 5 |}] BUY _ _) _).
    + vm_compute. discriminate.
    + intros s [<- | []] He. vm_compute. discriminate.
    + intros s [<- | []] He. vm_compute. reflexivity.
Defined.

(** ** The candle history of the application *)

Lemma len_app {A} (l l' : list A) : len (l ++ l') = (len l + len l')%Z.
Proof. unfold len. rewrite length_app. lia. Qed.

Lemma last_removelast {A} (l : list A) (x : A) :
  last l = Some x -> l = removelast l ++ [x].
Proof.
  intros Hl. apply last_Some in Hl. destruct Hl as [l' ->].
  now rewrite removelast_last.
Qed.

Lemma updateHistory_cases (oldData : list MarketCandle)
  (candle : MarketCandle) :
  (exists lastCandle,
      last oldData = Some lastCandle
      /\ (timestamp lastCandle == timestamp candle)%Q
      /\ App.updateHistory oldData candle = removelast oldData ++ [candle])
  \/ ((forall lastCandle, last oldData = Some lastCandle ->
         ~ (timestamp lastCandle == timestamp candle)%Q)
      /\ App.updateHistory oldData candle
         = if (len (oldData ++ [candle]) >? 400)%Z
           then tl (oldData ++ [candle]) else oldData ++ [candle]).
Proof.
  unfold App.updateHistory. cbv zeta.
  destruct (last oldData) as [lastCandle|] eqn:El.
  - destruct (Qeq_bool (timestamp lastCandle) (timestamp candle)) eqn:E.
    + left. exists lastCandle. apply Qeq_bool_iff in E. auto.
    + right. split; [|reflexivity].
      intros x Hx. injection Hx as <-. now apply Qeq_bool_false.
  - right. split; [|reflexivity]. intros x Hx. discriminate Hx.
Qed.

Lemma last_tl_snoc {A} (l : list A) (x : A) :
  (1 <= len l)%Z -> last (tl (l ++ [x])) = Some x.
Proof.
  destruct l as [|y l]; unfold len; cbn [length]; [lia|]. intros _.
  cbn [app tl]. apply last_snoc.
Qed.

Lemma updateHistory_shape (oldData : list MarketCandle)
  (candle : MarketCandle) :
  let newData := App.updateHistory oldData candle in
  last newData = Some candle
  /\ (len newData = len oldData
      \/ (len newData = len oldData + 1 /\ len oldData + 1 <= 400)%Z).
Proof.
  cbv zeta. pose proof (len_nonneg oldData) as Hnn.
  destruct (updateHistory_cases oldData candle)
    as [(lastCandle & Hl & _ & ->) | (_ & ->)].
  - rewrite last_snoc. split; [reflexivity|]. left.
    rewrite (last_removelast oldData lastCandle Hl) at 2.
    now rewrite !len_app.
  - assert (El : len (oldData ++ [candle]) = (len oldData + 1)%Z)
      by (now rewrite len_app).
    rewrite El.
    destruct (len oldData + 1 >? 400)%Z eqn:E.
    + apply Z.gtb_lt in E. rewrite last_tl_snoc by lia.
      split; [reflexivity|]. left.
      destruct oldData as [|y l]; [unfold len in E; cbn in E; lia|].
      cbn [app tl]. rewrite len_app. unfold len. cbn [length]. lia.
    + rewrite Z.gtb_ltb in E. apply Z.ltb_ge in E.
      rewrite last_snoc, El. split; [reflexivity|]. right. lia.
Qed.

(** X12.  After a tick the history of the symbol ends with the candle just
    received, and it holds at most 400 candles if it held at most 400
    before: one candle more than before, unless the candle replaced the
    last one (same timestamp, same length) or the history was full (the
    oldest candle is dropped). *)
Theorem updateHistory_window (oldData : list MarketCandle)
  (candle : MarketCandle) :
  (len oldData <= 400)%Z ->
  let newData := App.updateHistory oldData candle in
  last newData = Some candle
  /\ (len newData <= 400)%Z
  /\ (len newData = len oldData
      \/ len newData = (len oldData + 1)%Z).
Proof.
  intros Hlen. cbv zeta.
  destruct (updateHistory_shape oldData candle) as [Hlast Hshape].
  split; [exact Hlast|].
  destruct Hshape as [Hsame | [Hmore Hroom]].
  - split; [lia | now left].
  - split; [lia | now right].
Qed.

Lemma updateHistory_window_witness :
  let newData :=
    App.updateHistory [bar "ETH" 1 100; bar "ETH" 2 101] (bar "ETH" 2 102)
  in
  last newData = Some (bar "ETH" 2 102)
  /\ (len newData <= 400)%Z
  /\ (len newData = 2%Z \/ len newData = 3%Z).
Proof.
  apply (updateHistory_window [bar "ETH" 1 100; bar "ETH" 2 101]
           (bar "ETH" 2 102)).
  unfold len. simpl. lia.
Defined.

Lemma chronological_snoc (l : list MarketCandle) (x : MarketCandle) :
  chronological l ->
  (forall y, In y l -> (timestamp y < timestamp x)%Q) ->
  chronological (l ++ [x]).
Proof.
  unfold chronological. induction l as [|y l IH]; intros Hs Hx; cbn [app].
  - repeat constructor.
  - apply StronglySorted_inv in Hs. destruct Hs as [Hs Hy].
    constructor.
    + apply IH; [exact Hs | intros z Hz; apply Hx; now right].
    + apply Forall_app. split; [exact Hy|].
      repeat constructor. apply Hx. now left.
Qed.

Lemma chronological_init (l : list MarketCandle) (x : MarketCandle) :
  chronological (l ++ [x]) ->
  chronological l /\ forall y, In y l -> (timestamp y < timestamp x)%Q.
Proof.
  unfold chronological. induction l as [|y l IH]; cbn [app]; intros Hs.
  - split; [constructor | intros y []].
  - apply StronglySorted_inv in Hs. destruct Hs as [Hs Hy].
    destruct (IH Hs) as [Hl Hx]. apply Forall_app in Hy.
    destruct Hy as [Hy Hyx]. split.
    + now constructor.
    + intros z [<- | Hz]; [now inversion Hyx | now apply Hx].
Qed.

Lemma chronological_tl (l : list MarketCandle) :
  chronological l -> chronological (tl l).
Proof.
  unfold chronological. destruct l as [|y l]; intros Hs; [exact Hs|].
  now apply StronglySorted_inv in Hs.
Qed.

(** X13.  The history stays in strict time order: if the timestamps of the
    history increase strictly and the candle received is not older than
    the last one (the feed delivers the open bar again, then the next bar),
    the timestamps of the updated history increase strictly as well, so no
    timestamp occurs twice. *)
Theorem updateHistory_chronological (oldData : list MarketCandle)
  (candle : MarketCandle) :
  chronological oldData ->
  (forall lastCandle, last oldData = Some lastCandle ->
     (timestamp lastCandle <= timestamp candle)%Q) ->
  chronological (App.updateHistory oldData candle).
Proof.
  intros Hs Hfeed.
  destruct (updateHistory_cases oldData candle)
    as [(lastCandle & Hl & Heq & ->) | (Hne & ->)].
  - rewrite (last_removelast oldData lastCandle Hl) in Hs.
    apply chronological_init in Hs. destruct Hs as [Hs Hlt].
    apply chronological_snoc; [exact Hs|].
    intros y Hy. rewrite <- Heq. now apply Hlt.
  - assert (Hpush : chronological (oldData ++ [candle])).
    { destruct (last oldData) as [lastCandle|] eqn:El.
      - pose proof (Hfeed lastCandle eq_refl) as Hle.
        pose proof (Hne lastCandle eq_refl) as Hneq.
        assert (Hlt : (timestamp lastCandle < timestamp candle)%Q).
        { apply Qle_lteq in Hle. destruct Hle as [Hlt | Heq];
            [exact Hlt | contradiction]. }
        pose proof Hs as Hs'.
        rewrite (last_removelast oldData lastCandle El) in Hs'.
        apply chronological_init in Hs'. destruct Hs' as [_ Hinit].
        apply chronological_snoc; [exact Hs|].
        intros y Hy.
        rewrite (last_removelast oldData lastCandle El) in Hy.
        apply in_app_or in Hy. destruct Hy as [Hy | [<- | []]].
        + specialize (Hinit y Hy). lra.
        + exact Hlt.
      - apply last_None in El. subst oldData. repeat constructor. }
    destruct (len (oldData ++ [candle]) >? 400)%Z;
      [now apply chronological_tl | exact Hpush].
Qed.

Lemma updateHistory_chronological_witness :
  chronological
    (App.updateHistory [bar "ETH" 1 100; bar "ETH" 2 101] (bar "ETH" 2 102))
  /\ chronological
       (App.updateHistory [bar "ETH" 1 100; bar "ETH" 2 101]
          (bar "ETH" 3 102)).
Proof.
  assert (Hs : chronological [bar "ETH" 1 100; bar "ETH" 2 101])
    by (repeat constructor).
  split.
  - apply (updateHistory_chronological _ (bar "ETH" 2 102) Hs).
    intros lastCandle Hl. injection Hl as <-. vm_compute. discriminate.
  - apply (updateHistory_chronological _ (bar "ETH" 3 102) Hs).
    intros lastCandle Hl. injection Hl as <-. vm_compute. discriminate.
Defined.


